(** * The picture rasterization cache of the sky compositor

    A shallow embedding of
      - sky/compositor/picture_rasterizer.cc  (the cache itself),
      - sky/compositor/picture_layer.cc       (the node that queries it),
      - sky/compositor/paint_context.cc       (the frame context that purges it),
    followed by the properties of the cache protocol.

    The cache is a [std::unordered_map<Key, Value>]; it is modelled as a
    [gmap].  Mutation of [*this] is explicit state passing: every member
    function takes the object and returns the updated object. *)

From stdpp Require Import gmap list fin_maps fin_sets.

Local Open Scope Z_scope.

(** ** Collaborators: Skia scalars, sizes, pictures, the GPU context *)

(** [SkScalar] is Skia's floating-point type.  The compositor multiplies and
    divides scalars and converts them from and to [int]; none of the cache
    logic looks inside, so the arithmetic is an interface. *)
Class SkScalarOps (SkScalar : Type) := {
  scalar_mul : SkScalar → SkScalar → SkScalar;
  scalar_div : SkScalar → SkScalar → SkScalar;
  scalar_of_int : Z → SkScalar;
  scalar_to_int : SkScalar → Z
}.

(** [SkISize]: integer width and height in device pixels. *)
Record SkISize := SkISize_Make { fWidth : Z; fHeight : Z }.

(** [SkISize::isEmpty]: true when either dimension is zero or negative. *)
Definition isEmpty (s : SkISize) : bool :=
  (fWidth s <=? 0) || (fHeight s <=? 0).

#[global] Instance SkISize_eq_dec : EqDecision SkISize.
Proof. solve_decision. Defined.

#[global] Instance SkISize_countable : Countable SkISize :=
  inj_countable' (λ s, (fWidth s, fHeight s))
                 (λ p, SkISize_Make p.1 p.2)
                 (λ s, match s with SkISize_Make _ _ => eq_refl end).

(** [PictureRasterzier::Key]: the picture's unique id and the physical size.
    [KeyEqual] compares both fields, which is Leibniz equality here. *)
Module Key.
Record t := mk { pictureID : Z; size : SkISize }.
End Key.

#[global] Instance Key_eq_dec : EqDecision Key.t.
Proof. solve_decision. Defined.

#[global] Instance Key_countable : Countable Key.t :=
  inj_countable' (λ k, (Key.pictureID k, Key.size k))
                 (λ p, Key.mk p.1 p.2)
                 (λ k, match k with Key.mk _ _ => eq_refl end).

(** A picture, as far as the compositor reads it: its stable identity. *)
Record SkPicture := { uniqueID : Z }.

(** What one call observes of the GPU backend: whether
    [textureProvider()->createTexture] hands out a texture, and whether
    [SkImage::NewFromTexture] hands out an image.  A caller passes the
    backend on every call, so memory pressure that comes and goes is a
    different [GrContext] value on different calls. *)
Record GrContext := {
  texture_allocation_succeeds : bool;
  image_creation_succeeds : bool
}.

(** [CompositorOptions], the three toggles. *)
Record CompositorOptions := {
  DisplayFrameStatistics : bool;
  DisplayRasterizerStatistics : bool;
  HightlightRasterizedImages : bool
}.

(** Modelled from the spec: [Value::kDeadAccessCount] is declared in
    picture_rasterizer.h, which is not among the sources.  The spec fixes it
    through "two decrements from initial value 1 → DEAD". *)
Definition kDeadAccessCount : Z := -1.

(** Modelled from the spec: the class of the instrumentation counters
    ([cache_hits_], [cache_fills_], [cache_evictions_], [frame_count_]) is
    declared in a header that is not among the sources.  The spec describes
    counters that only grow, by one or by a given count:
    [increment(count = 1)]. *)
Definition increment (counter : N) (count : N) : N := (counter + count)%N.

Section Compositor.
Context {SkScalar : Type} `{SkScalarOps SkScalar}.

(** The scale factors are all the compositor reads of a matrix. *)
Record SkMatrix := { getScaleX : SkScalar; getScaleY : SkScalar }.

(** A rasterized image, described by how [ImageFromPicture] produced it. *)
Record SkImage := {
  image_picture : Z;
  image_scaleX : SkScalar;
  image_scaleY : SkScalar;
  image_width : Z;
  image_height : Z;
  image_checkerboard : bool
}.

(** [PictureRasterzier::Value].  The counter's declared type is in the
    missing header; the spec calls it a signed integer, and it is a [Z]
    here. *)
Record Value := { access_count : Z; image : option SkImage }.

(** [Value::Value()] *)
Definition Value_ctor : Value :=
  {| access_count := kDeadAccessCount; image := None |}.

Record PictureRasterzier := {
  cache_ : gmap Key.t Value;
  cache_hits_ : N;
  cache_fills_ : N;
  cache_evictions_ : N
}.

(** [PictureRasterzier::PictureRasterzier()] *)
Definition PictureRasterzier_ctor : PictureRasterzier :=
  {| cache_ := ∅; cache_hits_ := 0; cache_fills_ := 0; cache_evictions_ := 0 |}.

(** The GPU work one call performs, in order. *)
Inductive GpuCall :=
| CreateTexture (width height : Z)
| RenderPicture (picture : Z) (scaleX scaleY : SkScalar)
| DrawCheckerboard (width height : Z)
| NewFromTexture (width height : Z).

(** ** picture_rasterizer.cc *)

(** [PictureRasterzier::ImageFromPicture].  Returns the image (or null),
    the GPU calls made, and the rasterizer with [cache_fills_] updated.
    [options] stands for [context.options()]. *)
Definition ImageFromPicture (this : PictureRasterzier)
    (options : CompositorOptions) (gr_context : GrContext)
    (picture : SkPicture) (physical_size : SkISize) (incoming_ctm : SkMatrix)
    : option SkImage * list GpuCall * PictureRasterzier :=
  let create := CreateTexture (fWidth physical_size) (fHeight physical_size) in
  if negb (texture_allocation_succeeds gr_context) then
    (None, [create], this)
  else
    let desc_width :=
      scalar_to_int (scalar_div (scalar_of_int (fWidth physical_size))
                                (getScaleX incoming_ctm)) in
    let desc_height :=
      scalar_to_int (scalar_div (scalar_of_int (fHeight physical_size))
                                (getScaleY incoming_ctm)) in
    let render :=
      RenderPicture (uniqueID picture)
                    (getScaleX incoming_ctm) (getScaleY incoming_ctm) in
    let checker :=
      if HightlightRasterizedImages options
      then [DrawCheckerboard desc_width desc_height] else [] in
    let calls :=
      [create; render] ++ checker ++ [NewFromTexture desc_width desc_height] in
    if image_creation_succeeds gr_context then
      (Some {| image_picture := uniqueID picture;
               image_scaleX := getScaleX incoming_ctm;
               image_scaleY := getScaleY incoming_ctm;
               image_width := desc_width;
               image_height := desc_height;
               image_checkerboard := HightlightRasterizedImages options |},
       calls,
       {| cache_ := cache_ this;
          cache_hits_ := cache_hits_ this;
          cache_fills_ := increment (cache_fills_ this) 1;
          cache_evictions_ := cache_evictions_ this |})
    else (None, calls, this).

(** What a call of [GetCachedImageIfPresent] yields besides the new state.
    [dcheck_ok] is the [DCHECK(value.access_count == 1)]: the model runs on
    as a release build does and records whether the assertion held. *)
Record Outcome := {
  returned : option SkImage;
  dcheck_ok : bool;
  gpu_calls : list GpuCall
}.

Definition absent : Outcome :=
  {| returned := None; dcheck_ok := true; gpu_calls := [] |}.

(** [PictureRasterzier::GetCachedImageIfPresent].  [None] for [picture] or
    [gr_context] is the null pointer. *)
Definition GetCachedImageIfPresent (this : PictureRasterzier)
    (options : CompositorOptions) (gr_context : option GrContext)
    (picture : option SkPicture) (physical_size : SkISize)
    (incoming_ctm : SkMatrix) : Outcome * PictureRasterzier :=
  if isEmpty physical_size then (absent, this) else
  match picture, gr_context with
  | Some pic, Some gr =>
      let key := Key.mk (uniqueID pic) physical_size in
      (* Value& value = cache_[key]; *)
      let value := default Value_ctor (cache_ this !! key) in
      if decide (access_count value = kDeadAccessCount) then
        (absent,
         {| cache_ := <[key := {| access_count := 1; image := image value |}]>
                        (cache_ this);
            cache_hits_ := cache_hits_ this;
            cache_fills_ := cache_fills_ this;
            cache_evictions_ := cache_evictions_ this |})
      else
        let count := access_count value + 1 in
        let '(img, calls, this1) :=
          match image value with
          | Some i => (Some i, [], this)
          | None =>
              ImageFromPicture this options gr pic physical_size incoming_ctm
          end in
        ({| returned := img;
            dcheck_ok := bool_decide (count = 1);
            gpu_calls := calls |},
         {| cache_ := <[key := {| access_count := count; image := img |}]>
                        (cache_ this1);
            cache_hits_ := match img with
                           | Some _ => increment (cache_hits_ this1) 1
                           | None => cache_hits_ this1
                           end;
            cache_fills_ := cache_fills_ this1;
            cache_evictions_ := cache_evictions_ this1 |})
  | _, _ => (absent, this)
  end.

(** The decrement of one entry in the purge scan. *)
Definition decrement (v : Value) : Value :=
  {| access_count := access_count v - 1; image := image v |}.

Definition is_dead (kv : Key.t * Value) : Prop :=
  access_count kv.2 = kDeadAccessCount.

#[global] Instance is_dead_dec kv : Decision (is_dead kv).
Proof. unfold is_dead. apply _. Defined.

(** [PictureRasterzier::PurgeCache]: the scan decrements every entry and
    collects the keys whose counter is then dead; the counter of evictions
    grows by their number; the collected keys are erased one by one. *)
Definition PurgeCache (this : PictureRasterzier) : PictureRasterzier :=
  let scanned := decrement <$> cache_ this in
  let keys_to_purge : gset Key.t := dom (filter is_dead scanned) in
  {| cache_ := set_fold delete scanned keys_to_purge;
     cache_hits_ := cache_hits_ this;
     cache_fills_ := cache_fills_ this;
     cache_evictions_ :=
       increment (cache_evictions_ this) (N.of_nat (size keys_to_purge)) |}.

(** ** paint_context.cc *)

(** The statistics overlay draws two lines of text; a line is kept as the
    numbers it prints.  The frame line also prints the last lap of the frame
    timer, a wall-clock duration that the model leaves out. *)
Inductive StatisticsText :=
| FrameText (frame_count : N)
| RasterizerText (hits fills evictions : N).

Inductive CanvasOp :=
| Save
| Translate (dx dy : SkScalar)
| DrawPicture (picture : option SkPicture)
| Restore
| DrawImage (img : SkImage) (x y : SkScalar)
| DrawText (text : StatisticsText) (x y : Z).

(** A canvas: its total matrix and what has been drawn on it so far. *)
Record SkCanvas := { getTotalMatrix : SkMatrix; drawn : list CanvasOp }.

Definition draw (canvas : SkCanvas) (ops : list CanvasOp) : SkCanvas :=
  {| getTotalMatrix := getTotalMatrix canvas; drawn := drawn canvas ++ ops |}.

Record PaintContext := {
  rasterizer_ : PictureRasterzier;
  options_ : CompositorOptions;
  frame_count_ : N
}.

(** [PaintContext::ScopedFrame]: the owning context, the canvas and the GPU
    backend of one frame. *)
Record ScopedFrame := {
  paint_context : PaintContext;
  canvas : SkCanvas;
  gr_context : option GrContext
}.

(** [PaintContext::beginFrame] (the frame timer is left out). *)
Definition beginFrame (this : PaintContext) : PaintContext :=
  {| rasterizer_ := rasterizer_ this;
     options_ := options_ this;
     frame_count_ := increment (frame_count_ this) 1 |}.

Definition kLineSpacing : Z := 18.

(** [PaintContext::DisplayStatistics] *)
Definition DisplayStatistics (this : PaintContext) (canvas : SkCanvas)
    : SkCanvas :=
  let x := 10 in
  let y := 20 in
  let '(canvas, y) :=
    if DisplayFrameStatistics (options_ this)
    then (draw canvas [DrawText (FrameText (frame_count_ this)) x y],
          y + kLineSpacing)
    else (canvas, y) in
  if DisplayRasterizerStatistics (options_ this)
  then draw canvas
         [DrawText (RasterizerText (cache_hits_ (rasterizer_ this))
                                   (cache_fills_ (rasterizer_ this))
                                   (cache_evictions_ (rasterizer_ this)))
                   x y]
  else canvas.

(** [PaintContext::endFrame]: purge, then the overlay. *)
Definition endFrame (frame : ScopedFrame) : ScopedFrame :=
  let this := {| rasterizer_ := PurgeCache (rasterizer_ (paint_context frame));
                 options_ := options_ (paint_context frame);
                 frame_count_ := frame_count_ (paint_context frame) |} in
  {| paint_context := this;
     canvas := DisplayStatistics this (canvas frame);
     gr_context := gr_context frame |}.

(** Destruction.  An entry that is erased from the map, or destroyed with
    the map, is gone with its [Value]; [~Value] has an empty body, and the
    destruction of its member [image] gives up the reference the cache holds
    on the image (on the last reference [ImageReleaseProc] unrefs the
    texture).  A destruction is modelled by the entries it destroys, in no
    particular order, as the map is unordered. *)





(** ** picture_layer.cc *)

Record SkPoint := { x : SkScalar; y : SkScalar }.
Record SkRect := { width : SkScalar; height : SkScalar }.

Record PictureLayer := {
  picture_ : option SkPicture;
  offset_ : SkPoint;
  paint_bounds : SkRect
}.

(** The physical size [PictureLayer::Paint] asks the cache for. *)
Definition physical_size_of (layer : PictureLayer) (ctm : SkMatrix) : SkISize :=
  SkISize_Make
    (scalar_to_int (scalar_mul (width (paint_bounds layer)) (getScaleX ctm)))
    (scalar_to_int (scalar_mul (height (paint_bounds layer)) (getScaleY ctm))).

(** The two ways [Paint] draws. *)
Definition cached_path (layer : PictureLayer) (img : SkImage) : list CanvasOp :=
  [DrawImage img (x (offset_ layer)) (y (offset_ layer))].

Definition replay_path (layer : PictureLayer) : list CanvasOp :=
  [Save; Translate (x (offset_ layer)) (y (offset_ layer));
   DrawPicture (picture_ layer); Restore].

(** What a call of [Paint] yields besides the frame: whether
    [DCHECK(picture_)] held, and the outcome of the cache call. *)
Record Painted := {
  picture_dcheck_ok : bool;
  cache_call : Outcome
}.

(** [PictureLayer::Paint].  The first component tells whether the
    assertions held and what the cache answered, the second is the frame
    afterwards.  As for the assertion of the cache, the model runs on where
    [DCHECK(picture_)] fails, as a release build does, and records the
    failure: a debug build aborts there. *)
Definition Paint (layer : PictureLayer) (frame : ScopedFrame)
    : Painted * ScopedFrame :=
  let picture_ok := bool_decide (is_Some (picture_ layer)) in
  let ctm := getTotalMatrix (canvas frame) in
  let physical_size := physical_size_of layer ctm in
  let '(out, rasterizer) :=
    GetCachedImageIfPresent (rasterizer_ (paint_context frame))
      (options_ (paint_context frame)) (gr_context frame) (picture_ layer)
      physical_size ctm in
  let ops := match returned out with
             | Some img => cached_path layer img
             | None => replay_path layer
             end in
  ({| picture_dcheck_ok := picture_ok; cache_call := out |},
   {| paint_context := {| rasterizer_ := rasterizer;
                          options_ := options_ (paint_context frame);
                          frame_count_ := frame_count_ (paint_context frame) |};
      canvas := draw (canvas frame) ops;
      gr_context := gr_context frame |}).

(** ** Sequences of calls *)

(** The arguments of one call of [GetCachedImageIfPresent]. *)
Record Request := {
  req_options : CompositorOptions;
  req_gr_context : option GrContext;
  req_picture : option SkPicture;
  req_size : SkISize;
  req_ctm : SkMatrix
}.

Definition query (this : PictureRasterzier) (q : Request)
    : Outcome * PictureRasterzier :=
  GetCachedImageIfPresent this (req_options q) (req_gr_context q)
    (req_picture q) (req_size q) (req_ctm q).

(** The key a request addresses; [None] for the requests that return at
    the guard (empty size, null picture, null backend). *)
Definition request_key (q : Request) : option Key.t :=
  if isEmpty (req_size q) then None else
  match req_picture q, req_gr_context q with
  | Some pic, Some _ => Some (Key.mk (uniqueID pic) (req_size q))
  | _, _ => None
  end.

(** The request a layer's [Paint] makes in a frame. *)
Definition paint_request (layer : PictureLayer) (frame : ScopedFrame) : Request :=
  {| req_options := options_ (paint_context frame);
     req_gr_context := gr_context frame;
     req_picture := picture_ layer;
     req_size := physical_size_of layer (getTotalMatrix (canvas frame));
     req_ctm := getTotalMatrix (canvas frame) |}.

(** Texture allocation fails for this request. *)
Definition allocation_fails (q : Request) : Prop :=
  ∃ gr, req_gr_context q = Some gr ∧ texture_allocation_succeeds gr = false.

(** Rasterization goes through for this request. *)
Definition rasterization_succeeds (q : Request) : Prop :=
  ∃ gr, req_gr_context q = Some gr
        ∧ texture_allocation_succeeds gr = true
        ∧ image_creation_succeeds gr = true.

(** Several requests in a row, within one frame. *)
Fixpoint run_queries (this : PictureRasterzier) (qs : list Request)
    : PictureRasterzier :=
  match qs with
  | [] => this
  | q :: qs => run_queries (query this q).2 qs
  end.

(** Whole frames: the requests of a frame, then the purge that ends it. *)
Fixpoint run_frames (this : PictureRasterzier) (frames : list (list Request))
    : PictureRasterzier :=
  match frames with
  | [] => this
  | qs :: frames => run_frames (PurgeCache (run_queries this qs)) frames
  end.

(** Any interleaving of requests and purges. *)
Inductive Op :=
| OpQuery (q : Request)
| OpPurge.

Definition step (this : PictureRasterzier) (op : Op) : PictureRasterzier :=
  match op with
  | OpQuery q => (query this q).2
  | OpPurge => PurgeCache this
  end.

Definition run_ops (this : PictureRasterzier) (ops : list Op)
    : PictureRasterzier :=
  foldl step this ops.

(** The per-frame discipline: within a frame every key is requested at most
    once, and frames are separated by one purge.  [Disciplined seen r] says
    that [r] is the state of a rasterizer driven that way since its
    construction, [seen] being the keys requested so far in the frame in
    progress. *)
Inductive Disciplined : list Key.t → PictureRasterzier → Prop :=
| D_ctor :
    Disciplined [] PictureRasterzier_ctor
| D_query seen r q k :
    Disciplined seen r →
    request_key q = Some k →
    k ∉ seen →
    Disciplined (k :: seen) (query r q).2
| D_noop seen r q :
    Disciplined seen r →
    request_key q = None →
    Disciplined seen (query r q).2
| D_purge seen r :
    Disciplined seen r →
    Disciplined [] (PurgeCache r).

(** ** Vocabulary of the statements *)

(** What a purge leaves of an entry: nothing when the decremented counter is
    dead, the decremented entry otherwise. *)
Definition purged (v : Value) : option Value :=
  if decide (access_count v - 1 = kDeadAccessCount) then None
  else Some (decrement v).

(** The entries the next purge removes. *)
Definition reaches_dead (kv : Key.t * Value) : Prop :=
  access_count kv.2 - 1 = kDeadAccessCount.

#[global] Instance reaches_dead_dec kv : Decision (reaches_dead kv).
Proof. unfold reaches_dead. apply _. Defined.

(** The entry of [k], if there is one, holds no image. *)
Definition no_image (k : Key.t) (r : PictureRasterzier) : Prop :=
  ∀ v, cache_ r !! k = Some v → image v = None.

(** The request reaches the GPU backend in state [r]. *)
Definition attempts_allocation (r : PictureRasterzier) (q : Request) : Prop :=
  gpu_calls (query r q).1 ≠ [].

(** Texture allocation fails for [k] at this request: whenever a request of
    [k] reaches the backend, it gets no texture. *)
Definition starves (k : Key.t) (r : PictureRasterzier) (q : Request) : Prop :=
  request_key q = Some k → attempts_allocation r q → allocation_fails q.

(** Texture allocation fails on every attempt for [k] along a sequence of
    operations started in state [r]. *)
Fixpoint starved (k : Key.t) (r : PictureRasterzier) (ops : list Op) : Prop :=
  match ops with
  | [] => True
  | op :: ops' =>
      match op with OpQuery q => starves k r q | OpPurge => True end
      ∧ starved k (step r op) ops'
  end.

(** Every entry has counter 0: the state between two frames. *)
Definition all_idle (r : PictureRasterzier) : Prop :=
  ∀ k v, cache_ r !! k = Some v → access_count v = 0.

End Compositor.

Arguments SkMatrix : clear implicits.
Arguments SkImage : clear implicits.
Arguments Value : clear implicits.
Arguments PictureRasterzier : clear implicits.
Arguments Outcome : clear implicits.
Arguments Painted : clear implicits.
Arguments Request : clear implicits.
Arguments GpuCall : clear implicits.
Arguments CanvasOp : clear implicits.
Arguments SkCanvas : clear implicits.
Arguments PaintContext : clear implicits.
Arguments ScopedFrame : clear implicits.
Arguments SkPoint : clear implicits.
Arguments SkRect : clear implicits.
Arguments PictureLayer : clear implicits.
Arguments Op : clear implicits.

(** Scalars read as integers: the instance at which the examples below are
    evaluated. *)
#[global] Instance integer_scalars : SkScalarOps Z := {|
  scalar_mul := Z.mul;
  scalar_div := Z.div;
  scalar_of_int := λ z, z;
  scalar_to_int := λ z, z
|}.

(** The scenario of the end-to-end property: picture 7, bounds 100x50 under
    a scale of 2, hence a physical size of 200x100. *)
Definition no_options : CompositorOptions :=
  {| DisplayFrameStatistics := false;
     DisplayRasterizerStatistics := false;
     HightlightRasterizedImages := false |}.

Definition gpu_ready : GrContext :=
  {| texture_allocation_succeeds := true; image_creation_succeeds := true |}.

Definition gpu_exhausted : GrContext :=
  {| texture_allocation_succeeds := false; image_creation_succeeds := true |}.

Definition picture7 : SkPicture := {| uniqueID := 7 |}.

Definition scale2 : SkMatrix Z := {| getScaleX := 2; getScaleY := 2 |}.

Definition layer7 : PictureLayer Z :=
  {| picture_ := Some picture7;
     offset_ := {| x := 5; y := 6 |};
     paint_bounds := {| width := 100; height := 50 |} |}.

Definition key7 : Key.t := Key.mk 7 (SkISize_Make 200 100).

Definition request7 (gr : GrContext) : Request Z :=
  {| req_options := no_options;
     req_gr_context := Some gr;
     req_picture := Some picture7;
     req_size := SkISize_Make 200 100;
     req_ctm := scale2 |}.

Definition fresh : PictureRasterzier Z := PictureRasterzier_ctor.

Definition context0 : PaintContext Z :=
  {| rasterizer_ := fresh; options_ := no_options; frame_count_ := 0 |}.

(** One frame of the scenario: begin, paint the given layers on an empty
    canvas scaled by 2, end. *)
Definition scenario_frame (layers : list (PictureLayer Z)) (ctx : PaintContext Z)
    : ScopedFrame Z :=
  endFrame
    (foldl (λ frame layer, (Paint layer frame).2)
           {| paint_context := beginFrame ctx;
              canvas := {| getTotalMatrix := scale2; drawn := [] |};
              gr_context := Some gpu_ready |}
           layers).

Definition frame1 : ScopedFrame Z := scenario_frame [layer7] context0.
Definition frame2 : ScopedFrame Z := scenario_frame [layer7] (paint_context frame1).
Definition frame3 : ScopedFrame Z := scenario_frame [] (paint_context frame2).

(** The rasterizer of the scenario after its first frame, and after its
    second; the image the second frame caches; a frame handle on a
    rasterizer. *)
Definition warm : PictureRasterzier Z :=
  PurgeCache (query fresh (request7 gpu_ready)).2.

Definition cached : PictureRasterzier Z :=
  PurgeCache (query warm (request7 gpu_ready)).2.

Definition image7 : SkImage Z :=
  {| image_picture := 7;
     image_scaleX := 2;
     image_scaleY := 2;
     image_width := 100;
     image_height := 50;
     image_checkerboard := false |}.

Definition frame_on (r : PictureRasterzier Z) (gr : option GrContext)
    : ScopedFrame Z :=
  {| paint_context := {| rasterizer_ := r;
                         options_ := no_options;
                         frame_count_ := 1 |};
     canvas := {| getTotalMatrix := scale2; drawn := [] |};
     gr_context := gr |}.

(** ** Vocabulary of the further properties *)

Section Accounting.
Context {SkScalar : Type} `{SkScalarOps SkScalar}.

(** The four ways in which [GetCachedImageIfPresent] serves a call that
    passes the guard, [k] being the key of the call and [r] the rasterizer
    before it: the first-request branch; an entry that holds an image; an
    entry without image that is rasterized; one whose rasterization fails. *)
Inductive Served (r : PictureRasterzier SkScalar) (k : Key.t)
    : Outcome SkScalar → PictureRasterzier SkScalar → Prop :=
| served_first :
    access_count (default Value_ctor (cache_ r !! k)) = kDeadAccessCount →
    Served r k absent
      {| cache_ := <[k := {| access_count := 1;
                             image := image (default Value_ctor (cache_ r !! k)) |}]>
                     (cache_ r);
         cache_hits_ := cache_hits_ r;
         cache_fills_ := cache_fills_ r;
         cache_evictions_ := cache_evictions_ r |}
| served_cached v i :
    cache_ r !! k = Some v →
    access_count v ≠ kDeadAccessCount →
    image v = Some i →
    Served r k
      {| returned := Some i;
         dcheck_ok := bool_decide (access_count v + 1 = 1);
         gpu_calls := [] |}
      {| cache_ := <[k := {| access_count := access_count v + 1;
                             image := Some i |}]> (cache_ r);
         cache_hits_ := increment (cache_hits_ r) 1;
         cache_fills_ := cache_fills_ r;
         cache_evictions_ := cache_evictions_ r |}
| served_filled v img calls :
    cache_ r !! k = Some v →
    access_count v ≠ kDeadAccessCount →
    image v = None →
    calls ≠ [] →
    image_picture img = Key.pictureID k →
    Served r k
      {| returned := Some img;
         dcheck_ok := bool_decide (access_count v + 1 = 1);
         gpu_calls := calls |}
      {| cache_ := <[k := {| access_count := access_count v + 1;
                             image := Some img |}]> (cache_ r);
         cache_hits_ := increment (cache_hits_ r) 1;
         cache_fills_ := increment (cache_fills_ r) 1;
         cache_evictions_ := cache_evictions_ r |}
| served_failed v calls :
    cache_ r !! k = Some v →
    access_count v ≠ kDeadAccessCount →
    image v = None →
    calls ≠ [] →
    Served r k
      {| returned := None;
         dcheck_ok := bool_decide (access_count v + 1 = 1);
         gpu_calls := calls |}
      {| cache_ := <[k := {| access_count := access_count v + 1;
                             image := None |}]> (cache_ r);
         cache_hits_ := cache_hits_ r;
         cache_fills_ := cache_fills_ r;
         cache_evictions_ := cache_evictions_ r |}.

(** The entry holds an image. *)
Definition has_image (kv : Key.t * Value SkScalar) : Prop :=
  is_Some (image kv.2).

#[global] Instance has_image_dec kv : Decision (has_image kv).
Proof. unfold has_image. apply _. Defined.

(** The number of requests in a sequence of operations that pass the
    guard. *)
Definition requests_in (ops : list (Op SkScalar)) : nat :=
  length (omap (λ op, match op with
                      | OpQuery q => request_key q
                      | OpPurge => None
                      end) ops).

(** One if the call returned an image, zero otherwise. *)
Definition images_returned (out : Outcome SkScalar) : N :=
  match returned out with Some _ => 1%N | None => 0%N end.

(** How deep the operations drawn leave the save stack of the canvas;
    [None] when a restore comes without a save to undo. *)
Fixpoint save_depth (depth : nat) (ops : list (CanvasOp SkScalar)) : option nat :=
  match ops with
  | [] => Some depth
  | Save :: ops => save_depth (S depth) ops
  | Restore :: ops =>
      match depth with
      | O => None
      | S depth => save_depth depth ops
      end
  | _ :: ops => save_depth depth ops
  end.

End Accounting.

(** * Properties *)

(** ** Requests that stop at the guard *)

Section Guard.
Context {SkScalar : Type} `{SkScalarOps SkScalar}.

Implicit Types (r : PictureRasterzier SkScalar) (q : Request SkScalar).
Implicit Types (k : Key.t).

Lemma guard_returns r options gr pic sz ctm :
  isEmpty sz = true ∨ pic = None ∨ gr = None →
  GetCachedImageIfPresent r options gr pic sz ctm = (absent, r).
Proof.
  unfold GetCachedImageIfPresent.
  intros [-> | [-> | ->]]; [done | |].
  - by destruct (isEmpty sz).
  - by destruct (isEmpty sz), pic.
Qed.

Lemma request_key_None q :
  request_key q = None →
  isEmpty (req_size q) = true ∨ req_picture q = None ∨ req_gr_context q = None.
Proof.
  unfold request_key. destruct (isEmpty (req_size q)); [by left |].
  destruct (req_picture q), (req_gr_context q); naive_solver.
Qed.

Lemma query_noop q r : request_key q = None → query r q = (absent, r).
Proof. intros Hq. apply guard_returns. by apply request_key_None. Qed.

(** The shape of a request that passes the guard. *)
Lemma request_key_Some q k :
  request_key q = Some k →
  ∃ pic gr, req_picture q = Some pic ∧ req_gr_context q = Some gr
            ∧ isEmpty (req_size q) = false
            ∧ k = Key.mk (uniqueID pic) (req_size q).
Proof.
  unfold request_key. destruct (isEmpty (req_size q)); [done |].
  destruct (req_picture q) as [pic|], (req_gr_context q) as [gr|]; try done.
  intros [= <-]. by exists pic, gr.
Qed.

End Guard.

(** Opens a call whose request passes the guard: names the picture and the
    backend, and enters the body of [GetCachedImageIfPresent]. *)
Ltac enter_query Hq :=
  apply request_key_Some in Hq as (pic & gr & Hp & Hg & Hsz & ->);
  unfold query, GetCachedImageIfPresent;
  rewrite Hp, Hg, Hsz.

(** ** The first request of a key *)

Section Lookup.
Context {SkScalar : Type} `{SkScalarOps SkScalar}.

Implicit Types (r : PictureRasterzier SkScalar) (q : Request SkScalar).
Implicit Types (k : Key.t) (v : Value SkScalar).

Lemma query_fresh q k r :
  request_key q = Some k →
  cache_ r !! k = None →
  query r q =
    (absent,
     {| cache_ := <[k := {| access_count := 1; image := None |}]> (cache_ r);
        cache_hits_ := cache_hits_ r;
        cache_fills_ := cache_fills_ r;
        cache_evictions_ := cache_evictions_ r |}).
Proof.
  intros Hq Hk. enter_query Hq. by rewrite Hk.
Qed.

(** A request leaves the entries of all other keys alone. *)
Lemma query_other q k r :
  request_key q ≠ Some k → cache_ (query r q).2 !! k = cache_ r !! k.
Proof.
  intros Hne. destruct (request_key q) as [k'|] eqn:Hq.
  - assert (k' ≠ k) as Hk by congruence.
    enter_query Hq.
    case_decide; simpl; [by rewrite lookup_insert_ne |].
    destruct (image _); simpl; [by rewrite lookup_insert_ne |].
    unfold ImageFromPicture.
    destruct (texture_allocation_succeeds gr), (image_creation_succeeds gr);
      simpl; by rewrite lookup_insert_ne.
  - by rewrite query_noop.
Qed.

Lemma run_queries_other qs k r :
  Forall (λ q, request_key q ≠ Some k) qs →
  cache_ (run_queries r qs) !! k = cache_ r !! k.
Proof.
  intros Hqs. revert r.
  induction Hqs as [|q qs Hq _ IH]; intros r; simpl; [done |].
  by rewrite IH, query_other.
Qed.

(** A request of a key whose entry is live (present, counter not dead). *)
Lemma query_live_image q k r v i :
  request_key q = Some k →
  cache_ r !! k = Some v →
  access_count v ≠ kDeadAccessCount →
  image v = Some i →
  query r q =
    ({| returned := Some i;
        dcheck_ok := bool_decide (access_count v + 1 = 1);
        gpu_calls := [] |},
     {| cache_ := <[k := {| access_count := access_count v + 1;
                            image := Some i |}]> (cache_ r);
        cache_hits_ := increment (cache_hits_ r) 1;
        cache_fills_ := cache_fills_ r;
        cache_evictions_ := cache_evictions_ r |}).
Proof.
  intros Hq Hk Hlive Hi. enter_query Hq. rewrite Hk. simpl.
  rewrite decide_False by done. by rewrite Hi.
Qed.

Lemma query_live_alloc_fails q k r v :
  request_key q = Some k →
  cache_ r !! k = Some v →
  access_count v ≠ kDeadAccessCount →
  image v = None →
  allocation_fails q →
  query r q =
    ({| returned := None;
        dcheck_ok := bool_decide (access_count v + 1 = 1);
        gpu_calls := [CreateTexture (fWidth (req_size q))
                                    (fHeight (req_size q))] |},
     {| cache_ := <[k := {| access_count := access_count v + 1;
                            image := None |}]> (cache_ r);
        cache_hits_ := cache_hits_ r;
        cache_fills_ := cache_fills_ r;
        cache_evictions_ := cache_evictions_ r |}).
Proof.
  intros Hq Hk Hlive Hi (gr' & Hg' & Hfail). enter_query Hq.
  assert (gr' = gr) as -> by congruence.
  rewrite Hk. simpl.
  rewrite decide_False by done. rewrite Hi.
  unfold ImageFromPicture. by rewrite Hfail.
Qed.

Lemma query_live_rasterizes q k r v :
  request_key q = Some k →
  cache_ r !! k = Some v →
  access_count v ≠ kDeadAccessCount →
  image v = None →
  rasterization_succeeds q →
  ∃ img calls,
    query r q =
      ({| returned := Some img;
          dcheck_ok := bool_decide (access_count v + 1 = 1);
          gpu_calls := calls |},
       {| cache_ := <[k := {| access_count := access_count v + 1;
                              image := Some img |}]> (cache_ r);
          cache_hits_ := increment (cache_hits_ r) 1;
          cache_fills_ := increment (cache_fills_ r) 1;
          cache_evictions_ := cache_evictions_ r |})
    ∧ image_picture img = Key.pictureID k.
Proof.
  intros Hq Hk Hlive Hi (gr' & Hg' & Halloc & Himg). enter_query Hq.
  assert (gr' = gr) as -> by congruence.
  rewrite Hk. simpl.
  rewrite decide_False by done. rewrite Hi.
  unfold ImageFromPicture. rewrite Halloc, Himg. simpl.
  eexists _, _. split; reflexivity.
Qed.

End Lookup.

Section Purge.
Context {SkScalar : Type} `{SkScalarOps SkScalar}.

Implicit Types (r : PictureRasterzier SkScalar) (q : Request SkScalar).
Implicit Types (k : Key.t) (v : Value SkScalar).
Implicit Types (m : gmap Key.t (Value SkScalar)).

(** Erasing a set of keys, as the second loop of [PurgeCache] does. *)
Lemma lookup_foldr_delete (ks : list Key.t) m k :
  foldr delete m ks !! k = if decide (k ∈ ks) then None else m !! k.
Proof.
  induction ks as [|k' ks IH]; cbn [foldr].
  - case_decide; [set_solver | done].
  - destruct (decide (k' = k)) as [->|Hne].
    + rewrite lookup_delete_eq.
      destruct (decide (k ∈ k :: ks)); [done | set_solver].
    + rewrite lookup_delete_ne, IH by done.
      destruct (decide (k ∈ ks)) as [Hin|Hin], (decide (k ∈ k' :: ks)) as [Hin'|Hin'];
        try done.
      * destruct Hin'. by right.
      * apply elem_of_cons in Hin' as [->|Hin']; done.
Qed.

Lemma lookup_set_fold_delete (ks : gset Key.t) m k :
  set_fold delete m ks !! k = if decide (k ∈ ks) then None else m !! k.
Proof.
  unfold set_fold; cbn [compose]. rewrite lookup_foldr_delete.
  destruct (decide (k ∈ elements ks)), (decide (k ∈ ks));
    try done; set_solver.
Qed.

Lemma PurgeCache_lookup r k :
  cache_ (PurgeCache r) !! k = cache_ r !! k ≫= purged.
Proof.
  unfold PurgeCache. simpl. rewrite lookup_set_fold_delete.
  destruct (cache_ r !! k) as [v|] eqn:Hk; simpl.
  - unfold purged.
    destruct (decide (access_count v - 1 = kDeadAccessCount)) as [Hd|Hd].
    + rewrite decide_True; [done |].
      apply elem_of_dom. exists (decrement v).
      apply map_lookup_filter_Some. split; [| done].
      by rewrite lookup_fmap, Hk.
    + rewrite decide_False; [by rewrite lookup_fmap, Hk |].
      intros [v' Hv']%elem_of_dom.
      apply map_lookup_filter_Some in Hv' as [Hv' Hdead].
      rewrite lookup_fmap, Hk in Hv'. simpl in Hv'. by simplify_eq.
  - rewrite decide_False; [by rewrite lookup_fmap, Hk |].
    intros [v' Hv']%elem_of_dom.
    apply map_lookup_filter_Some in Hv' as [Hv' _].
    by rewrite lookup_fmap, Hk in Hv'.
Qed.

Lemma PurgeCache_count r :
  size (dom (filter is_dead (decrement <$> cache_ r)) : gset Key.t)
  = size (filter reaches_dead (cache_ r)).
Proof.
  rewrite size_dom, map_filter_fmap, map_size_fmap.
  reflexivity.
Qed.

Lemma PurgeCache_evictions r :
  cache_evictions_ (PurgeCache r)
  = (cache_evictions_ r + N.of_nat (size (filter reaches_dead (cache_ r))))%N.
Proof. unfold PurgeCache, increment. simpl. by rewrite PurgeCache_count. Qed.

(** The purged map is what the scan keeps; so the sizes add up. *)
Lemma PurgeCache_keeps r :
  cache_ (PurgeCache r)
  = decrement <$> filter (λ kv, ¬ reaches_dead kv) (cache_ r).
Proof.
  apply map_eq. intros k. rewrite PurgeCache_lookup, lookup_fmap.
  destruct (cache_ r !! k) as [v|] eqn:Hk; simpl.
  - unfold purged. case_decide as Hd.
    + rewrite map_lookup_filter_None_2; [done |]. right. intros v' Hv'.
      simplify_eq. intros Hn. by apply Hn.
    + by erewrite map_lookup_filter_Some_2.
  - rewrite map_lookup_filter_None_2; [done | by left].
Qed.

Lemma PurgeCache_size r :
  size (cache_ r)
  = (size (cache_ (PurgeCache r)) + size (filter reaches_dead (cache_ r)))%nat.
Proof.
  rewrite PurgeCache_keeps, map_size_fmap.
  rewrite <- (map_filter_union_complement reaches_dead (cache_ r)) at 1.
  rewrite map_size_disj_union by apply map_disjoint_filter_complement.
  lia.
Qed.

End Purge.

Section Discipline.
Context {SkScalar : Type} `{SkScalarOps SkScalar}.

Implicit Types (r : PictureRasterzier SkScalar) (q : Request SkScalar).
Implicit Types (k : Key.t) (v : Value SkScalar) (seen : list Key.t).

(** The counter a request leaves in the entry of its key, and the
    assertion it checks, in any state. *)
Lemma query_count q k r :
  request_key q = Some k →
  let old := access_count (default Value_ctor (cache_ r !! k)) in
  ∃ v', cache_ (query r q).2 !! k = Some v'
        ∧ access_count v' = (if decide (old = kDeadAccessCount) then 1 else old + 1)
        ∧ dcheck_ok (query r q).1
          = (if decide (old = kDeadAccessCount) then true
             else bool_decide (old + 1 = 1)).
Proof.
  intros Hq old. subst old. enter_query Hq.
  set (value := default Value_ctor _).
  destruct (decide (access_count value = kDeadAccessCount)) as [Hd|Hd]; simpl.
  - rewrite lookup_insert_eq. by eexists.
  - destruct (image value); simpl.
    + rewrite lookup_insert_eq. by eexists.
    + unfold ImageFromPicture.
      destruct (texture_allocation_succeeds gr), (image_creation_succeeds gr);
        simpl; rewrite lookup_insert_eq; by eexists.
Qed.

(** The invariant of the discipline: the entries requested in the frame in
    progress have counter 1, all others counter 0. *)
Lemma disciplined_counts seen r k v :
  Disciplined seen r →
  cache_ r !! k = Some v →
  access_count v = if decide (k ∈ seen) then 1 else 0.
Proof.
  intros HD. revert k v.
  induction HD as [|seen r q k0 HD IH Hq Hk0|seen r q HD IH Hq|seen r HD IH];
    intros k v Hv.
  - simpl in Hv. by rewrite lookup_empty in Hv.
  - destruct (decide (k = k0)) as [->|Hne].
    + rewrite decide_True by (by left).
      destruct (query_count q k0 r Hq) as (v' & Hv' & Hc & _).
      rewrite Hv in Hv'. injection Hv' as <-. rewrite Hc.
      destruct (cache_ r !! k0) as [v0|] eqn:H0; simpl; [| done].
      rewrite (IH _ _ H0). by rewrite (decide_False (P := k0 ∈ seen)).
    + rewrite query_other in Hv by congruence.
      rewrite (IH _ _ Hv).
      destruct (decide (k ∈ seen)) as [Hin|Hin], (decide (k ∈ k0 :: seen))
        as [Hin'|Hin']; try done.
      * destruct Hin'. by right.
      * apply elem_of_cons in Hin' as [->|Hin']; done.
  - rewrite query_noop in Hv by done. by apply IH.
  - rewrite PurgeCache_lookup in Hv.
    destruct (cache_ r !! k) as [v0|] eqn:H0; simpl in Hv; [| done].
    unfold purged in Hv. case_decide as Hd; [done |].
    injection Hv as <-. simpl.
    specialize (IH _ _ H0).
    unfold kDeadAccessCount in Hd. destruct (decide (k ∈ seen)); lia.
Qed.

(** A key requested in the frame in progress has an entry. *)
Lemma disciplined_seen seen r k :
  Disciplined seen r → k ∈ seen → is_Some (cache_ r !! k).
Proof.
  intros HD. revert k.
  induction HD as [|seen r q k0 HD IH Hq Hk0|seen r q HD IH Hq|seen r HD IH];
    intros k Hin.
  - by apply not_elem_of_nil in Hin.
  - destruct (decide (k = k0)) as [->|Hne].
    + destruct (query_count q k0 r Hq) as (v' & Hv' & _). by exists v'.
    + rewrite query_other by congruence. apply IH.
      apply elem_of_cons in Hin as [->|Hin]; done.
  - rewrite query_noop by done. by apply IH.
  - by apply not_elem_of_nil in Hin.
Qed.

Lemma disciplined_run_queries seen r qs :
  Disciplined seen r →
  NoDup (omap request_key qs) →
  Forall (λ q, ∀ k, request_key q = Some k → k ∉ seen) qs →
  ∃ seen', Disciplined seen' (run_queries r qs)
           ∧ ∀ k, k ∈ seen' ↔ k ∈ seen ∨ k ∈ omap request_key qs.
Proof.
  intros HD Hnd Hqs. revert seen r HD Hnd Hqs.
  induction qs as [|q qs IH]; intros seen r HD Hnd Hqs; simpl.
  - exists seen. split; [done |]. intros k. split; [by left |].
    intros [Hin|Hin]; [done | by apply not_elem_of_nil in Hin].
  - apply Forall_cons in Hqs as [Hq Hqs]. simpl in Hnd.
    destruct (request_key q) as [k0|] eqn:Hk0.
    + apply NoDup_cons in Hnd as [Hk0' Hnd].
      destruct (IH (k0 :: seen) (query r q).2) as (seen' & HD' & Hseen').
      * apply D_query; [done | done | by apply Hq].
      * done.
      * apply Forall_forall. intros q' Hq' k Hk Hin.
        apply elem_of_cons in Hin as [->|Hin].
        -- apply Hk0'. apply list_elem_of_omap. by exists q'.
        -- rewrite Forall_forall in Hqs. by apply (Hqs q' Hq' k).
      * exists seen'. split; [done |]. intros k. rewrite Hseen'.
        rewrite !elem_of_cons. tauto.
    + destruct (IH seen (query r q).2) as (seen' & HD' & Hseen'); try done.
      * by apply D_noop.
      * by exists seen'.
Qed.

(** Frames whose requests address pairwise different keys keep the
    discipline. *)
Lemma disciplined_run_frames (frames : list (list (Request SkScalar))) r :
  Disciplined [] r →
  Forall (λ qs, NoDup (omap request_key qs)) frames →
  Disciplined [] (run_frames r frames).
Proof.
  intros HD Hframes. revert r HD.
  induction Hframes as [|qs frames Hqs _ IH]; intros r HD; simpl; [done |].
  apply IH.
  destruct (disciplined_run_queries [] r qs HD Hqs) as (seen' & HD' & _).
  - apply Forall_forall. intros q _ k _. apply not_elem_of_nil.
  - by apply D_purge with (seen := seen').
Qed.

End Discipline.

(** * The claims *)

Section Claims.
Context {SkScalar : Type} `{SkScalarOps SkScalar}.

Implicit Types (r : PictureRasterzier SkScalar) (q : Request SkScalar).
Implicit Types (k : Key.t) (v : Value SkScalar) (seen : list Key.t).

(** C1. First-miss guarantee: for a key that has no entry, a call with valid
    inputs (non-empty size, a picture, a GPU backend) returns absent, inserts
    an entry with counter 1 and no image, makes no GPU call and leaves the
    three counters alone, whatever the backend would have answered. *)
Theorem first_request_is_a_miss r options gr pic sz ctm :
  isEmpty sz = false →
  cache_ r !! Key.mk (uniqueID pic) sz = None →
  GetCachedImageIfPresent r options (Some gr) (Some pic) sz ctm
  = ({| returned := None; dcheck_ok := true; gpu_calls := [] |},
     {| cache_ := <[Key.mk (uniqueID pic) sz :=
                      {| access_count := 1; image := None |}]> (cache_ r);
        cache_hits_ := cache_hits_ r;
        cache_fills_ := cache_fills_ r;
        cache_evictions_ := cache_evictions_ r |}).
Proof.
  intros Hsz Hk.
  apply (query_fresh {| req_options := options; req_gr_context := Some gr;
                        req_picture := Some pic; req_size := sz;
                        req_ctm := ctm |}); [| done].
  unfold request_key. simpl. by rewrite Hsz.
Qed.

(** C6. Input no-ops: with an empty size, a null picture or a null GPU
    backend the call returns absent, makes no GPU call, and leaves the map
    and the counters of hits, fills and evictions as they were. *)
Theorem guard_is_a_noop r options gr pic sz ctm :
  isEmpty sz = true ∨ pic = None ∨ gr = None →
  let '(out, r') := GetCachedImageIfPresent r options gr pic sz ctm in
  returned out = None
  ∧ gpu_calls out = []
  ∧ cache_ r' = cache_ r
  ∧ cache_hits_ r' = cache_hits_ r
  ∧ cache_fills_ r' = cache_fills_ r
  ∧ cache_evictions_ r' = cache_evictions_ r.
Proof. intros Hguard. by rewrite guard_returns. Qed.

(** C10. A key evicted by a purge is a new key again: the next request of it
    returns absent without GPU work and inserts an entry with counter 1 and
    no image, which is, outcome and entry, what the request does in any
    state where the key has no entry. *)
Theorem evicted_key_is_fresh r q k v :
  request_key q = Some k →
  cache_ r !! k = Some v →
  cache_ (PurgeCache r) !! k = None →
  query (PurgeCache r) q
  = ({| returned := None; dcheck_ok := true; gpu_calls := [] |},
     {| cache_ := <[k := {| access_count := 1; image := None |}]>
                    (cache_ (PurgeCache r));
        cache_hits_ := cache_hits_ (PurgeCache r);
        cache_fills_ := cache_fills_ (PurgeCache r);
        cache_evictions_ := cache_evictions_ (PurgeCache r) |})
  ∧ ∀ r0, cache_ r0 !! k = None →
          (query r0 q).1 = (query (PurgeCache r) q).1
          ∧ cache_ (query r0 q).2 !! k = cache_ (query (PurgeCache r) q).2 !! k.
Proof.
  intros Hq _ Hgone. split; [by apply query_fresh |].
  intros r0 Hr0.
  rewrite (query_fresh q k r0), (query_fresh q k (PurgeCache r)) by done.
  simpl. by rewrite !lookup_insert_eq.
Qed.

(** An entry the purge removes counts for one among the removed. *)
Lemma evicted_counts_once (m : gmap Key.t (Value SkScalar)) k v :
  m !! k = Some v →
  reaches_dead (k, v) →
  size (filter reaches_dead m) = S (size (filter reaches_dead (delete k m))).
Proof.
  intros Hk Hdead.
  rewrite <- (insert_delete_id m k v) at 1 by done.
  rewrite map_filter_insert_True by done.
  rewrite map_size_insert_None; [done |].
  apply map_lookup_filter_None_2. left. apply lookup_delete_eq.
Qed.

(** The entry of a key one frame after its request, the key not being
    requested again: still there, counter 0. *)
Lemma idle_after_one_frame seen r0 q k rest next :
  Disciplined seen r0 →
  request_key q = Some k →
  k ∉ seen →
  Forall (λ q', request_key q' ≠ Some k) rest →
  Forall (λ q', request_key q' ≠ Some k) next →
  ∃ v, cache_ (run_queries (PurgeCache (run_queries (query r0 q).2 rest)) next)
         !! k = Some v
       ∧ access_count v = 0.
Proof.
  intros HD Hq Hk Hrest Hnext.
  destruct (query_count q k r0 Hq) as (v1 & Hv1 & Hc1 & _).
  assert (access_count v1 = 1) as Hone.
  { rewrite Hc1. destruct (cache_ r0 !! k) as [v0|] eqn:H0; simpl; [| done].
    rewrite (disciplined_counts seen r0 k v0 HD H0).
    by rewrite (decide_False (P := k ∈ seen)). }
  exists (decrement v1). split; [| simpl; lia].
  rewrite run_queries_other, PurgeCache_lookup, run_queries_other, Hv1 by done.
  simpl. unfold purged. rewrite decide_False; [done |].
  rewrite Hone. done.
Qed.

(** C2. In every state, a purge decrements the counter of every entry and
    removes exactly the entries whose counter is then DEAD; the counter of
    evictions grows by the number of entries removed, hits and fills stay.
    Consequently, when [r] is the state at the end of frame N+1 and the key
    [k] was requested in frame N but not in frame N+1, the purge ending frame
    N+1 removes the entry of [k], which accounts for one eviction next to
    those of the other entries removed by that purge. *)
Theorem purge_decrements_and_evicts r :
  (∀ k, cache_ (PurgeCache r) !! k = cache_ r !! k ≫= purged)
  ∧ cache_evictions_ (PurgeCache r)
    = (cache_evictions_ r + N.of_nat (size (filter reaches_dead (cache_ r))))%N
  ∧ size (cache_ r)
    = (size (cache_ (PurgeCache r)) + size (filter reaches_dead (cache_ r)))%nat
  ∧ cache_hits_ (PurgeCache r) = cache_hits_ r
  ∧ cache_fills_ (PurgeCache r) = cache_fills_ r
  ∧ ∀ seen r0 q k rest next,
      Disciplined seen r0 →
      request_key q = Some k →
      k ∉ seen →
      Forall (λ q', request_key q' ≠ Some k) rest →
      Forall (λ q', request_key q' ≠ Some k) next →
      r = run_queries (PurgeCache (run_queries (query r0 q).2 rest)) next →
      is_Some (cache_ r !! k)
      ∧ cache_ (PurgeCache r) !! k = None
      ∧ cache_evictions_ (PurgeCache r)
        = (cache_evictions_ r + 1
           + N.of_nat (size (filter reaches_dead (delete k (cache_ r)))))%N.
Proof.
  split; [intros k; apply PurgeCache_lookup |].
  split; [apply PurgeCache_evictions |].
  split; [apply PurgeCache_size |].
  do 2 (split; [done |]).
  intros seen r0 q k rest next HD Hq Hk Hrest Hnext ->.
  destruct (idle_after_one_frame seen r0 q k rest next) as (v & Hv & Hc);
    try done.
  set (r := run_queries _ next) in *.
  assert (reaches_dead (k, v)) as Hdead by (unfold reaches_dead; simpl; by rewrite Hc).
  split; [by exists v |]. split.
  - rewrite PurgeCache_lookup, Hv. simpl. unfold purged.
    by rewrite decide_True.
  - rewrite PurgeCache_evictions, (evicted_counts_once _ k v) by done. lia.
Qed.

(** The request after one warm-up frame finds the entry with counter 0 and
    without an image, in any state: no discipline is needed for a key that
    had no entry. *)
Lemma warm_entry r q1 k rest next :
  cache_ r !! k = None →
  request_key q1 = Some k →
  Forall (λ q', request_key q' ≠ Some k) rest →
  Forall (λ q', request_key q' ≠ Some k) next →
  cache_ (run_queries (PurgeCache (run_queries (query r q1).2 rest)) next) !! k
  = Some {| access_count := 0; image := None |}.
Proof.
  intros Hk Hq1 Hrest Hnext.
  rewrite run_queries_other, PurgeCache_lookup, run_queries_other by done.
  rewrite (query_fresh q1 k r) by done. simpl.
  by rewrite lookup_insert_eq.
Qed.

(** C3 (amended). Hit after warm-up: a key without entry is requested in
    frame N, which is a miss; frame N ends with its purge; the key is
    requested again in frame N+1.  If texture allocation and image creation
    succeed on that call, it returns an image, the assertion on the counter
    holds, and the counter of hits grows by exactly one (as does the counter
    of fills).  If the texture cannot be allocated, the call returns absent
    and the counter of hits is unchanged.  Requests of other keys may come
    in between. *)
Theorem hit_after_warm_up r q1 q2 k rest next :
  cache_ r !! k = None →
  request_key q1 = Some k →
  request_key q2 = Some k →
  Forall (λ q', request_key q' ≠ Some k) rest →
  Forall (λ q', request_key q' ≠ Some k) next →
  let r1 := run_queries (PurgeCache (run_queries (query r q1).2 rest)) next in
  returned (query r q1).1 = None
  ∧ (rasterization_succeeds q2 →
     ∃ img, returned (query r1 q2).1 = Some img
            ∧ image_picture img = Key.pictureID k
            ∧ dcheck_ok (query r1 q2).1 = true
            ∧ cache_hits_ (query r1 q2).2 = (cache_hits_ r1 + 1)%N
            ∧ cache_fills_ (query r1 q2).2 = (cache_fills_ r1 + 1)%N
            ∧ cache_ (query r1 q2).2 !! k
              = Some {| access_count := 1; image := Some img |})
  ∧ (allocation_fails q2 →
     returned (query r1 q2).1 = None
     ∧ dcheck_ok (query r1 q2).1 = true
     ∧ cache_hits_ (query r1 q2).2 = cache_hits_ r1
     ∧ cache_fills_ (query r1 q2).2 = cache_fills_ r1
     ∧ cache_ (query r1 q2).2 !! k
       = Some {| access_count := 1; image := None |}).
Proof.
  intros Hk Hq1 Hq2 Hrest Hnext r1.
  split; [by rewrite (query_fresh q1 k r) |].
  pose proof (warm_entry r q1 k rest next Hk Hq1 Hrest Hnext) as Hwarm.
  fold r1 in Hwarm. split.
  - intros Hgpu.
    destruct (query_live_rasterizes q2 k r1 _ Hq2 Hwarm)
      as (img & calls & -> & Hid); [done | done | done |].
    exists img. simpl. by rewrite lookup_insert_eq.
  - intros Hfail.
    rewrite (query_live_alloc_fails q2 k r1 _ Hq2 Hwarm) by done.
    simpl. by rewrite lookup_insert_eq.
Qed.

(** A request of a live entry without image reaches the backend. *)
Lemma live_query_attempts q k r v :
  request_key q = Some k →
  cache_ r !! k = Some v →
  access_count v ≠ kDeadAccessCount →
  image v = None →
  attempts_allocation r q.
Proof.
  intros Hq Hk Hlive Hi. unfold attempts_allocation. enter_query Hq.
  rewrite Hk. simpl. rewrite decide_False by done. rewrite Hi.
  unfold ImageFromPicture.
  by destruct (texture_allocation_succeeds gr), (image_creation_succeeds gr).
Qed.

(** Without a texture a request leaves an image-less entry image-less. *)
Lemma starved_query k r q :
  no_image k r →
  request_key q = Some k →
  starves k r q →
  returned (query r q).1 = None
  ∧ cache_fills_ (query r q).2 = cache_fills_ r
  ∧ cache_hits_ (query r q).2 = cache_hits_ r
  ∧ no_image k (query r q).2.
Proof.
  intros Hno Hq Hstarves.
  destruct (cache_ r !! k) as [v|] eqn:Hk.
  - destruct (decide (access_count v = kDeadAccessCount)) as [Hd|Hd].
    + clear Hstarves. enter_query Hq. rewrite Hk. simpl.
      rewrite decide_True by done. simpl. repeat split.
      intros v'. simpl. rewrite lookup_insert_eq. intros [= <-]. simpl.
      by apply Hno.
    + assert (allocation_fails q) as Hfail.
      { apply Hstarves; [done |].
        apply (live_query_attempts q k r v); auto. }
      rewrite (query_live_alloc_fails q k r v) by auto. simpl.
      repeat split. intros v'. simpl. rewrite lookup_insert_eq.
      by intros [= <-].
  - rewrite (query_fresh q k r) by done. simpl. repeat split.
    intros v'. simpl. rewrite lookup_insert_eq. by intros [= <-].
Qed.

Lemma starved_step k r op :
  no_image k r →
  match op with OpQuery q => starves k r q | OpPurge => True end →
  no_image k (step r op).
Proof.
  intros Hno Hop. destruct op as [q|]; simpl in *.
  - destruct (decide (request_key q = Some k)) as [Hq|Hq].
    + by apply starved_query.
    + intros v. rewrite query_other by done. apply Hno.
  - intros v'. rewrite PurgeCache_lookup.
    destruct (cache_ r !! k) as [v|] eqn:Hk; simpl; [| done].
    unfold purged. case_decide; [done |]. intros [= <-]. simpl. by apply Hno.
Qed.

Lemma starved_run k ops r :
  no_image k r → starved k r ops → no_image k (run_ops r ops).
Proof.
  revert r. induction ops as [|op ops IH]; intros r Hno Hops; simpl; [done |].
  destruct Hops as [Hop Hops]. apply IH; [| done]. by apply starved_step.
Qed.

(** [Paint] is the request of the layer, followed by one of the two ways of
    drawing. *)
Lemma Paint_draws (layer : PictureLayer SkScalar) (frame : ScopedFrame SkScalar) :
  drawn (canvas (Paint layer frame).2)
  = drawn (canvas frame)
    ++ match returned (query (rasterizer_ (paint_context frame))
                             (paint_request layer frame)).1 with
       | Some img => cached_path layer img
       | None => replay_path layer
       end.
Proof.
  unfold Paint, query, paint_request. simpl.
  by destruct (GetCachedImageIfPresent _ _ _ _ _ _) as [out r'].
Qed.

(** C4. Allocation failure degrades gracefully.  Let the rasterizer go
    through any sequence of requests and purges in which every request of
    the key [k] that reaches the GPU backend finds no texture.  Then the
    entry of [k] holds no image, and a further request of [k] which, if it
    reaches the backend, finds no texture either, returns absent, leaves the
    counters of fills and hits as they are and the entry without image; a
    layer whose [Paint] makes that request draws by replaying the picture
    (save, translate, draw picture, restore). *)
Theorem allocation_failure_degrades k ops :
  starved k PictureRasterzier_ctor ops →
  let r := run_ops PictureRasterzier_ctor ops in
  no_image k r
  ∧ ∀ q, request_key q = Some k →
         starves k r q →
         returned (query r q).1 = None
         ∧ cache_fills_ (query r q).2 = cache_fills_ r
         ∧ cache_hits_ (query r q).2 = cache_hits_ r
         ∧ no_image k (query r q).2
         ∧ ∀ layer frame,
             rasterizer_ (paint_context frame) = r →
             paint_request layer frame = q →
             drawn (canvas (Paint layer frame).2)
             = drawn (canvas frame) ++ replay_path layer.
Proof.
  intros Hops r.
  assert (no_image k r) as Hno.
  { apply starved_run; [| done]. intros v. simpl. by rewrite lookup_empty. }
  split; [done |]. intros q Hq Hstarves.
  destruct (starved_query k r q Hno Hq Hstarves)
    as (Hret & Hfills & Hhits & Hno').
  repeat (split; [done |]).
  intros layer frame Hr Hreq. by rewrite Paint_draws, Hr, Hreq, Hret.
Qed.

(** C5 (amended). Under the per-frame discipline the counter of every entry
    in the map is 0 or 1, never DEAD: it is 1 exactly for the keys requested
    in the frame in progress, each of which has an entry, and 0 for all
    others; between frames every entry has counter 0. *)
Theorem disciplined_counters seen r :
  Disciplined seen r →
  (∀ k v, cache_ r !! k = Some v →
          (access_count v = 0 ∨ access_count v = 1)
          ∧ access_count v ≠ kDeadAccessCount
          ∧ (k ∈ seen ↔ access_count v = 1))
  ∧ (∀ k, k ∈ seen → ∃ v, cache_ r !! k = Some v ∧ access_count v = 1)
  ∧ (seen = [] → all_idle r).
Proof.
  intros HD. split; [| split].
  - intros k v Hv. rewrite (disciplined_counts seen r k v HD Hv).
    unfold kDeadAccessCount. destruct (decide (k ∈ seen)) as [Hin|Hin].
    + split; [by right |]. split; [lia |]. by split.
    + split; [by left |]. split; [lia |]. split; [done | lia].
  - intros k Hin. destruct (disciplined_seen seen r k HD Hin) as [v Hv].
    exists v. split; [done |]. rewrite (disciplined_counts seen r k v HD Hv).
    by rewrite decide_True.
  - intros -> k v Hv. by rewrite (disciplined_counts [] r k v HD Hv).
Qed.

(** C7. Under the per-frame discipline (the key of the request has not been
    requested in the frame in progress, purges separate the frames) the
    assertion checked by a request holds, and a request that finds an entry
    of its key increments the counter of that entry to exactly 1. *)
Theorem disciplined_assertion_holds seen r q :
  Disciplined seen r →
  (∀ k, request_key q = Some k → k ∉ seen) →
  dcheck_ok (query r q).1 = true
  ∧ ∀ k v, request_key q = Some k →
           cache_ r !! k = Some v →
           ∃ v', cache_ (query r q).2 !! k = Some v'
                 ∧ access_count v' = access_count v + 1
                 ∧ access_count v' = 1.
Proof.
  intros HD Hnew.
  destruct (request_key q) as [k|] eqn:Hq; [| by rewrite query_noop].
  specialize (Hnew k eq_refl).
  destruct (query_count q k r Hq) as (v' & Hv' & Hc & Hcheck).
  destruct (cache_ r !! k) as [v|] eqn:Hk; simpl in *.
  - pose proof (disciplined_counts seen r k v HD Hk) as Hzero.
    rewrite (decide_False (P := k ∈ seen)) in Hzero by done.
    rewrite Hzero in Hc, Hcheck. simpl in Hc, Hcheck.
    split; [done |]. intros k0 v0 [= <-] Hv0.
    assert (v0 = v) as -> by congruence.
    exists v'. rewrite Hzero. by rewrite Hc.
  - split; [done |]. intros k0 v0 [= <-] Hv0. congruence.
Qed.






End Claims.

(** ** The claims at the scenario *)

(** The first frame of the scenario, after its request and after its
    purge, is within the discipline. *)
Lemma frame1_in_progress :
  Disciplined [key7] (query fresh (request7 gpu_ready)).2.
Proof.
  apply (D_query [] fresh (request7 gpu_ready) key7).
  - apply D_ctor.
  - reflexivity.
  - apply not_elem_of_nil.
Qed.

Lemma frame1_ended :
  Disciplined [] (PurgeCache (query fresh (request7 gpu_ready)).2).
Proof. apply D_purge with (seen := [key7]). apply frame1_in_progress. Qed.

Lemma first_request_is_a_miss_witness :
  GetCachedImageIfPresent fresh no_options (Some gpu_ready) (Some picture7)
    (SkISize_Make 200 100) scale2
  = ({| returned := None; dcheck_ok := true; gpu_calls := [] |},
     {| cache_ := <[key7 := {| access_count := 1; image := None |}]> ∅;
        cache_hits_ := 0; cache_fills_ := 0; cache_evictions_ := 0 |}).
Proof.
  apply (first_request_is_a_miss fresh no_options gpu_ready picture7
           (SkISize_Make 200 100) scale2); reflexivity.
Defined.

Lemma guard_is_a_noop_witness :
  let '(out, r') :=
    GetCachedImageIfPresent fresh no_options (Some gpu_ready) (Some picture7)
      (SkISize_Make 0 100) scale2 in
  returned out = None
  ∧ gpu_calls out = []
  ∧ cache_ r' = cache_ fresh
  ∧ cache_hits_ r' = cache_hits_ fresh
  ∧ cache_fills_ r' = cache_fills_ fresh
  ∧ cache_evictions_ r' = cache_evictions_ fresh.
Proof.
  apply (guard_is_a_noop fresh no_options (Some gpu_ready) (Some picture7)
           (SkISize_Make 0 100) scale2).
  left. reflexivity.
Defined.

Lemma evicted_key_is_fresh_witness :
  (query (PurgeCache (PurgeCache (query fresh (request7 gpu_ready)).2))
         (request7 gpu_ready)).1
  = {| returned := None; dcheck_ok := true; gpu_calls := [] |}.
Proof.
  refine (f_equal fst (proj1
    (evicted_key_is_fresh (PurgeCache (query fresh (request7 gpu_ready)).2)
       (request7 gpu_ready) key7 {| access_count := 0; image := None |}
       _ _ _))); vm_compute; reflexivity.
Defined.

Lemma purge_decrements_and_evicts_witness :
  cache_ (PurgeCache (PurgeCache (query fresh (request7 gpu_ready)).2)) !! key7
  = None
  ∧ cache_evictions_ (PurgeCache (PurgeCache (query fresh (request7 gpu_ready)).2))
    = 1%N.
Proof.
  destruct (purge_decrements_and_evicts
              (PurgeCache (query fresh (request7 gpu_ready)).2))
    as (_ & _ & _ & _ & _ & Hidle).
  destruct (Hidle [] fresh (request7 gpu_ready) key7 [] [])
    as (_ & Hgone & Hevictions).
  - apply D_ctor.
  - reflexivity.
  - apply not_elem_of_nil.
  - apply Forall_nil_2.
  - apply Forall_nil_2.
  - reflexivity.
  - split; [exact Hgone |].
    etransitivity; [exact Hevictions |]. vm_compute. reflexivity.
Defined.

(** C3, as stated, fails: the key is requested in frame N (a miss), frame N
    is purged, the key is requested again in frame N+1, but no texture can
    be allocated then.  The second request returns absent and the counter of
    hits does not move. *)
Lemma warm_up_without_texture :
  request_key (request7 gpu_ready) = Some key7
  ∧ request_key (request7 gpu_exhausted) = Some key7
  ∧ cache_ fresh !! key7 = None
  ∧ returned (query fresh (request7 gpu_ready)).1 = None
  ∧ returned (query (PurgeCache (query fresh (request7 gpu_ready)).2)
                    (request7 gpu_exhausted)).1 = None
  ∧ cache_hits_ (query (PurgeCache (query fresh (request7 gpu_ready)).2)
                       (request7 gpu_exhausted)).2
    = cache_hits_ (PurgeCache (query fresh (request7 gpu_ready)).2).
Proof. vm_compute. repeat split. Qed.

Lemma hit_after_warm_up_witness :
  (∃ img, returned (query (PurgeCache (query fresh (request7 gpu_ready)).2)
                          (request7 gpu_ready)).1 = Some img
          ∧ cache_hits_ (query (PurgeCache (query fresh (request7 gpu_ready)).2)
                               (request7 gpu_ready)).2 = 1%N)
  ∧ returned (query (PurgeCache (query fresh (request7 gpu_ready)).2)
                    (request7 gpu_ready)).1 ≠ None.
Proof.
  destruct (hit_after_warm_up fresh (request7 gpu_ready) (request7 gpu_ready)
              key7 [] [])
    as (_ & Hhit & _).
  - reflexivity.
  - reflexivity.
  - reflexivity.
  - apply Forall_nil_2.
  - apply Forall_nil_2.
  - destruct Hhit as (img & Hret & _ & _ & Hhits & _).
    + exists gpu_ready. repeat split.
    + split.
      * exists img. split; [exact Hret |].
        etransitivity; [exact Hhits |]. vm_compute. reflexivity.
      * intros Hnone. simpl in Hret. rewrite Hret in Hnone. discriminate.
Defined.

Lemma allocation_failure_degrades_witness :
  returned (query (run_ops fresh
                     [OpQuery (request7 gpu_ready); OpPurge;
                      OpQuery (request7 gpu_exhausted); OpPurge])
                  (request7 gpu_exhausted)).1 = None
  ∧ drawn (canvas (Paint layer7
                     {| paint_context :=
                          {| rasterizer_ :=
                               run_ops fresh
                                 [OpQuery (request7 gpu_ready); OpPurge;
                                  OpQuery (request7 gpu_exhausted); OpPurge];
                             options_ := no_options;
                             frame_count_ := 2 |};
                        canvas := {| getTotalMatrix := scale2; drawn := [] |};
                        gr_context := Some gpu_exhausted |}).2)
    = [Save; Translate 5 6; DrawPicture (Some picture7); Restore].
Proof.
  destruct (allocation_failure_degrades key7
              [OpQuery (request7 gpu_ready); OpPurge;
               OpQuery (request7 gpu_exhausted); OpPurge]) as [_ Hq].
  - split; [| split; [done | split; [| done]]].
    + intros _ Hattempt. exfalso. apply Hattempt. reflexivity.
    + intros _ _. exists gpu_exhausted. split; reflexivity.
  - destruct (Hq (request7 gpu_exhausted)) as (Hret & _ & _ & _ & Hpaint).
    + reflexivity.
    + intros _ _. exists gpu_exhausted. split; reflexivity.
    + split; [exact Hret |]. apply Hpaint; reflexivity.
Defined.

(** C5, as stated, fails: one request and the purge that ends its frame
    leave an entry whose counter is 0, which is neither DEAD nor positive. *)
Lemma idle_entry_counter_is_zero :
  Disciplined [] (PurgeCache (query fresh (request7 gpu_ready)).2)
  ∧ cache_ (PurgeCache (query fresh (request7 gpu_ready)).2) !! key7
    = Some {| access_count := 0; image := None |}
  ∧ ¬ (access_count {| access_count := 0; image := @None (SkImage Z) |}
         = kDeadAccessCount
       ∨ 0 < access_count {| access_count := 0; image := @None (SkImage Z) |}).
Proof.
  split; [| split].
  - apply frame1_ended.
  - vm_compute. reflexivity.
  - unfold kDeadAccessCount. simpl. lia.
Qed.

Lemma disciplined_counters_witness :
  ∃ v, cache_ (query fresh (request7 gpu_ready)).2 !! key7 = Some v
       ∧ access_count v = 1.
Proof.
  destruct (disciplined_counters [key7] (query fresh (request7 gpu_ready)).2)
    as (_ & Hseen & _).
  - apply frame1_in_progress.
  - apply Hseen. left.
Defined.

Lemma disciplined_assertion_holds_witness :
  dcheck_ok (query (PurgeCache (query fresh (request7 gpu_ready)).2)
                   (request7 gpu_ready)).1 = true.
Proof.
  apply (disciplined_assertion_holds []
           (PurgeCache (query fresh (request7 gpu_ready)).2)
           (request7 gpu_ready)).
  - apply frame1_ended.
  - intros k _. apply not_elem_of_nil.
Defined.


(** ** The end-to-end scenario

    Picture 7 with bounds 100x50 under a scale of 2.  Frame 1 misses and
    replays the picture; frame 2 hits and draws the cached image at the same
    offset, with one hit and one fill; frame 3 does not ask for the picture,
    and its purge evicts the entry. *)
Example end_to_end :
  drawn (canvas frame1)
  = [Save; Translate 5 6; DrawPicture (Some picture7); Restore]
  ∧ (∃ img, drawn (canvas frame2) = [DrawImage img 5 6]
            ∧ image_picture img = 7 ∧ image_scaleX img = 2)
  ∧ cache_hits_ (rasterizer_ (paint_context frame2)) = 1%N
  ∧ cache_fills_ (rasterizer_ (paint_context frame2)) = 1%N
  ∧ cache_evictions_ (rasterizer_ (paint_context frame2)) = 0%N
  ∧ cache_ (rasterizer_ (paint_context frame3)) = ∅
  ∧ cache_evictions_ (rasterizer_ (paint_context frame3)) = 1%N
  ∧ frame_count_ (paint_context frame3) = 3%N.
Proof. vm_compute. repeat split. by eexists. Qed.

(** * Further properties of the rasterizer *)

Section Calls.
Context {SkScalar : Type} `{SkScalarOps SkScalar}.

Implicit Types (r : PictureRasterzier SkScalar) (q : Request SkScalar).
Implicit Types (k : Key.t) (v : Value SkScalar) (seen : list Key.t).
Implicit Types (ops : list (Op SkScalar)).

(** Every call that passes the guard is served in one of the four ways. *)
Lemma query_served q k r :
  request_key q = Some k → Served r k (query r q).1 (query r q).2.
Proof.
  intros Hq. enter_query Hq.
  set (k := Key.mk _ _).
  destruct (decide (access_count (default Value_ctor (cache_ r !! k))
                    = kDeadAccessCount)) as [Hd|Hd]; simpl.
  { by apply served_first. }
  destruct (cache_ r !! k) as [v|] eqn:Hk; simpl in *; [| done].
  destruct (image v) as [i|] eqn:Hi; simpl.
  { by apply served_cached. }
  unfold ImageFromPicture.
  destruct (texture_allocation_succeeds gr); simpl.
  - destruct (image_creation_succeeds gr); simpl.
    + by apply served_filled.
    + by apply served_failed.
  - by apply served_failed.
Qed.

(** X1. A call changes no entry but the one of its own key: the entries
    of all other keys stay as they are, no key leaves the map, and the
    counter of evictions is not touched. *)
Theorem request_keeps_other_entries r q :
  (∀ k, request_key q ≠ Some k → cache_ (query r q).2 !! k = cache_ r !! k)
  ∧ dom (cache_ r) ⊆ dom (cache_ (query r q).2)
  ∧ cache_evictions_ (query r q).2 = cache_evictions_ r.
Proof.
  split; [intros k; apply query_other |].
  destruct (request_key q) as [k|] eqn:Hq; [| by rewrite query_noop].
  destruct (query_served q k r Hq); simpl; (split; [| done]);
    rewrite dom_insert; set_solver.
Qed.

(** X2. The counter of hits counts the images handed out: a call adds one
    to it when it returns an image and leaves it alone when it returns
    absent, in every state and for every input. *)
Theorem hits_count_returned_images r q :
  cache_hits_ (query r q).2
  = (cache_hits_ r + images_returned (query r q).1)%N.
Proof.
  destruct (request_key q) as [k|] eqn:Hq.
  - destruct (query_served q k r Hq); unfold images_returned, increment;
      simpl; lia.
  - rewrite query_noop by done. unfold images_returned. simpl. lia.
Qed.

(** X3. An image handed out is the image the cache holds: when a call
    returns an image, the entry of the call's key holds that very image
    afterwards. *)
Theorem returned_image_is_cached r q img :
  returned (query r q).1 = Some img →
  ∃ k v, request_key q = Some k
         ∧ cache_ (query r q).2 !! k = Some v
         ∧ image v = Some img.
Proof.
  intros Hret. destruct (request_key q) as [k|] eqn:Hq.
  - exists k. destruct (query_served q k r Hq); simpl in *; try done;
      injection Hret as ->; eexists; by rewrite lookup_insert_eq.
  - by rewrite query_noop in Hret.
Qed.

(** X4. The counter of fills counts the rasterizations that produced an
    image: a call adds one to it when it went to the GPU and returns an
    image, and leaves it alone otherwise (served from the cache, failed
    rasterization, first request, guard). *)
Theorem fills_count_rasterizations r q :
  cache_fills_ (query r q).2
  = (cache_fills_ r
     + match gpu_calls (query r q).1 with
       | [] => 0
       | _ :: _ => images_returned (query r q).1
       end)%N.
Proof.
  destruct (request_key q) as [k|] eqn:Hq.
  - destruct (query_served q k r Hq) as [| | v img calls ? ? ? Hcalls|
                                          v calls ? ? ? Hcalls];
      unfold images_returned, increment; simpl; try lia;
      destruct calls; try done; lia.
  - rewrite query_noop by done. simpl. lia.
Qed.

End Calls.

Section Runs.
Context {SkScalar : Type} `{SkScalarOps SkScalar}.

Implicit Types (r : PictureRasterzier SkScalar) (q : Request SkScalar).
Implicit Types (k : Key.t) (v : Value SkScalar) (seen : list Key.t).
Implicit Types (ops : list (Op SkScalar)).
Implicit Types (m : gmap Key.t (Value SkScalar)).

(** A property of the state that every operation preserves holds along
    every sequence of operations. *)
Lemma run_ops_invariant (I : PictureRasterzier SkScalar → Prop) ops r :
  (∀ r op, I r → I (step r op)) → I r → I (run_ops r ops).
Proof.
  intros Hstep. revert r.
  induction ops as [|op ops IH]; intros r Hr; simpl; [done |].
  apply IH. by apply Hstep.
Qed.

Lemma step_counters r op :
  (cache_hits_ r ≤ cache_hits_ (step r op))%N
  ∧ (cache_fills_ r ≤ cache_fills_ (step r op))%N
  ∧ (cache_evictions_ r ≤ cache_evictions_ (step r op))%N.
Proof.
  destruct op as [q|]; simpl.
  - destruct (request_key q) as [k|] eqn:Hq; [| by rewrite query_noop].
    destruct (query_served q k r Hq); unfold increment; simpl; lia.
  - unfold increment. lia.
Qed.

(** X5. The three counters never decrease, whatever sequence of requests
    and purges the rasterizer goes through. *)
Theorem counters_never_decrease r ops :
  (cache_hits_ r ≤ cache_hits_ (run_ops r ops))%N
  ∧ (cache_fills_ r ≤ cache_fills_ (run_ops r ops))%N
  ∧ (cache_evictions_ r ≤ cache_evictions_ (run_ops r ops))%N.
Proof.
  apply (run_ops_invariant
           (λ r', (cache_hits_ r ≤ cache_hits_ r')%N
                  ∧ (cache_fills_ r ≤ cache_fills_ r')%N
                  ∧ (cache_evictions_ r ≤ cache_evictions_ r')%N));
    [| lia].
  intros r' op (Hh & Hf & He).
  destruct (step_counters r' op) as (Hh' & Hf' & He'). lia.
Qed.

(** X6. Every fill is a hit: from construction on, the counter of fills
    never exceeds the counter of hits. *)
Theorem fills_at_most_hits ops :
  (cache_fills_ (run_ops PictureRasterzier_ctor ops)
   ≤ cache_hits_ (run_ops PictureRasterzier_ctor ops))%N.
Proof.
  apply (run_ops_invariant (λ r, (cache_fills_ r ≤ cache_hits_ r)%N));
    [| done].
  intros r [q|] Hr; simpl; [| done].
  destruct (request_key q) as [k|] eqn:Hq; [| by rewrite query_noop].
  destruct (query_served q k r Hq); unfold increment; simpl; lia.
Qed.

(** Replacing an entry changes the number of entries with an image by at
    most one, and not at all when old and new entry agree on having one. *)
Lemma images_insert_le m k v :
  (size (filter has_image (<[k:=v]> m)) ≤ S (size (filter has_image m)))%nat.
Proof.
  rewrite map_filter_insert. case_decide.
  - rewrite map_size_insert. destruct (filter has_image m !! k); simpl; lia.
  - rewrite map_filter_delete, map_size_delete.
    destruct (filter has_image m !! k); simpl; lia.
Qed.

Lemma images_insert_same m k v :
  (has_image (k, v) ↔ ∃ v0, m !! k = Some v0 ∧ has_image (k, v0)) →
  size (filter has_image (<[k:=v]> m)) = size (filter has_image m).
Proof.
  intros Hsame. rewrite map_filter_insert. case_decide as Hv.
  - apply Hsame in Hv as (v0 & Hk & Hv0).
    apply map_size_insert_Some. exists v0.
    by apply map_lookup_filter_Some.
  - rewrite map_filter_delete_not; [done |].
    intros v0 Hk Hv0. apply Hv, Hsame. by exists v0.
Qed.

Lemma images_purge r :
  (size (filter has_image (cache_ (PurgeCache r)))
   ≤ size (filter has_image (cache_ r)))%nat.
Proof.
  rewrite PurgeCache_keeps, map_filter_fmap, map_size_fmap.
  apply map_subseteq_size, map_subseteq_spec. intros k v.
  rewrite !map_lookup_filter_Some. by intros [[Hk _] Hi].
Qed.

(** X7. Every cached image was made by a fill: from construction on, the
    number of entries that hold an image never exceeds the counter of
    fills. *)
Theorem cached_images_at_most_fills ops :
  (N.of_nat (size (filter has_image
                     (cache_ (run_ops PictureRasterzier_ctor ops))))
   ≤ cache_fills_ (run_ops PictureRasterzier_ctor ops))%N.
Proof.
  apply (run_ops_invariant
           (λ r, (N.of_nat (size (filter has_image (cache_ r)))
                  ≤ cache_fills_ r)%N)).
  - intros r [q|] Hr; cbn [step].
    + destruct (request_key q) as [k|] eqn:Hq; [| by rewrite query_noop].
      destruct (query_served q k r Hq) as [Hd|v i Hk Hlive Hi|
                                           v img calls Hk Hlive Hi _ _|
                                           v calls Hk Hlive Hi _]; simpl.
      * rewrite images_insert_same; [done |].
        unfold has_image. simpl.
        destruct (cache_ r !! k) as [v0|]; simpl.
        -- split; [by exists v0 | by intros (v1 & [= ->] & Hv1)].
        -- split; [by intros [? ?] | by intros (v1 & ? & _)].
      * rewrite images_insert_same; [done |].
        unfold has_image. simpl.
        split; [exists v; by rewrite Hi | by eexists].
      * pose proof (images_insert_le (cache_ r) k
                      {| access_count := access_count v + 1;
                         image := Some img |}).
        unfold increment. lia.
      * rewrite images_insert_same; [done |].
        unfold has_image. simpl.
        split; [by intros [? ?] |].
        intros (v1 & Hv1 & Him). rewrite Hk in Hv1. injection Hv1 as <-.
        rewrite Hi in Him. by destruct Him.
    + pose proof (images_purge r).
      change (cache_fills_ (PurgeCache r)) with (cache_fills_ r). lia.
  - simpl. rewrite map_filter_empty, map_size_empty. lia.
Qed.

Lemma requests_in_cons (op : Op SkScalar) ops :
  requests_in (op :: ops)
  = (match op with
     | OpQuery q => match request_key q with Some _ => 1 | None => 0 end
     | OpPurge => 0
     end + requests_in ops)%nat.
Proof.
  unfold requests_in. simpl.
  destruct op as [q|]; [| done]. by destruct (request_key q).
Qed.

Lemma entries_and_evictions r ops :
  (N.of_nat (size (cache_ (run_ops r ops))) + cache_evictions_ (run_ops r ops)
   ≤ N.of_nat (size (cache_ r)) + cache_evictions_ r
     + N.of_nat (requests_in ops))%N.
Proof.
  revert r. induction ops as [|op ops IH]; intros r; [simpl; lia |].
  rewrite requests_in_cons. simpl. etransitivity; [apply IH |].
  destruct op as [q|]; cbn [step].
  - destruct (request_key q) as [k|] eqn:Hq.
    + assert ((size (cache_ (query r q).2) ≤ S (size (cache_ r)))%nat
              ∧ cache_evictions_ (query r q).2 = cache_evictions_ r)
        as [Hsize ->].
      { destruct (query_served q k r Hq); simpl; (split; [| done]);
          rewrite map_size_insert; destruct (cache_ r !! k); simpl; lia. }
      lia.
    + rewrite query_noop by done. simpl. lia.
  - rewrite PurgeCache_evictions. pose proof (PurgeCache_size r). lia.
Qed.

(** X8. Entries and evictions are paid for by requests: from construction
    on, the number of entries in the map plus the counter of evictions never
    exceeds the number of calls that passed the guard. *)
Theorem entries_and_evictions_at_most_requests ops :
  (N.of_nat (size (cache_ (run_ops PictureRasterzier_ctor ops)))
   + cache_evictions_ (run_ops PictureRasterzier_ctor ops)
   ≤ N.of_nat (requests_in ops))%N.
Proof.
  etransitivity; [apply entries_and_evictions |].
  simpl. rewrite map_size_empty. lia.
Qed.

End Runs.

Section Frames.
Context {SkScalar : Type} `{SkScalarOps SkScalar}.

Implicit Types (r : PictureRasterzier SkScalar) (q : Request SkScalar).
Implicit Types (k : Key.t) (v : Value SkScalar) (seen : list Key.t).
Implicit Types (qs : list (Request SkScalar)).

Lemma disciplined_reuse seen r q k v i :
  Disciplined seen r →
  request_key q = Some k →
  k ∉ seen →
  cache_ r !! k = Some v →
  image v = Some i →
  query r q
  = ({| returned := Some i; dcheck_ok := true; gpu_calls := [] |},
     {| cache_ := <[k := {| access_count := 1; image := Some i |}]> (cache_ r);
        cache_hits_ := (cache_hits_ r + 1)%N;
        cache_fills_ := cache_fills_ r;
        cache_evictions_ := cache_evictions_ r |}).
Proof.
  intros HD Hq Hk Hv Hi.
  pose proof (disciplined_counts seen r k v HD Hv) as Hzero.
  rewrite (decide_False (P := k ∈ seen)) in Hzero by done.
  rewrite (query_live_image q k r v i) by (rewrite ?Hzero; done).
  by rewrite Hzero.
Qed.

(** X9. A cached image is reused: under the discipline, the request of a
    key whose entry holds an image returns that image, makes no GPU call,
    does not look at the backend, the options or the transform of the call,
    adds one hit and no fill, and sets the counter of the entry to 1. *)
Theorem cached_image_is_reused seen r q k v i :
  Disciplined seen r →
  request_key q = Some k →
  k ∉ seen →
  cache_ r !! k = Some v →
  image v = Some i →
  query r q
  = ({| returned := Some i; dcheck_ok := true; gpu_calls := [] |},
     {| cache_ := <[k := {| access_count := 1; image := Some i |}]> (cache_ r);
        cache_hits_ := (cache_hits_ r + 1)%N;
        cache_fills_ := cache_fills_ r;
        cache_evictions_ := cache_evictions_ r |}).
Proof.
  intros HD Hq Hk Hv Hi.
  assert (access_count v = 0) as Hzero.
  { rewrite (disciplined_counts seen r k v HD Hv).
    by rewrite (decide_False (P := k ∈ seen)). }
  assert (access_count v ≠ kDeadAccessCount) as Hlive by (by rewrite Hzero).
  rewrite (query_live_image q k r v i Hq Hv Hlive Hi).
  by rewrite Hzero.
Qed.

(** X10. The assertion catches a second request: under the discipline, a
    request of a key that was already requested since the last purge raises
    the counter of the entry to 2 and fails the assertion. *)
Theorem second_request_trips_assertion seen r q k :
  Disciplined seen r →
  request_key q = Some k →
  k ∈ seen →
  dcheck_ok (query r q).1 = false
  ∧ ∃ v', cache_ (query r q).2 !! k = Some v' ∧ access_count v' = 2.
Proof.
  intros HD Hq Hk.
  destruct (disciplined_seen seen r k HD Hk) as [v Hv].
  pose proof (disciplined_counts seen r k v HD Hv) as Hone.
  rewrite (decide_True (P := k ∈ seen)) in Hone by done.
  destruct (query_count q k r Hq) as (v' & Hv' & Hc & Hcheck).
  rewrite Hv in Hc, Hcheck. simpl in Hc, Hcheck.
  rewrite Hone in Hc, Hcheck. simpl in Hc, Hcheck.
  split; [done |]. by exists v'.
Qed.

(** X11. After the purge that ends a frame the map holds exactly the keys
    requested in that frame. *)
Theorem purge_leaves_keys_of_the_frame seen r :
  Disciplined seen r →
  dom (cache_ (PurgeCache r)) = list_to_set seen.
Proof.
  intros HD. apply set_eq. intros k.
  rewrite elem_of_dom, elem_of_list_to_set, PurgeCache_lookup.
  split.
  - destruct (cache_ r !! k) as [v|] eqn:Hv; simpl; [| by intros [? ?]].
    pose proof (disciplined_counts seen r k v HD Hv) as Hc.
    destruct (decide (k ∈ seen)); [done |].
    unfold purged. rewrite Hc. simpl. by intros [? ?].
  - intros Hk. destruct (disciplined_seen seen r k HD Hk) as [v Hv].
    pose proof (disciplined_counts seen r k v HD Hv) as Hc.
    rewrite (decide_True (P := k ∈ seen)) in Hc by done.
    rewrite Hv. simpl. unfold purged. rewrite Hc. simpl. by eexists.
Qed.

(** X12. Without requests, an entry with counter [c ≥ 0] is still there,
    image and all, after [c] purges, and is gone after one more. *)
Theorem entry_outlives_its_counter r k v (n : nat) :
  cache_ r !! k = Some v →
  0 ≤ access_count v →
  cache_ (Nat.iter n PurgeCache r) !! k
  = if decide (Z.of_nat n ≤ access_count v)
    then Some {| access_count := access_count v - Z.of_nat n;
                 image := image v |}
    else None.
Proof.
  intros Hv Hc. induction n as [|n IH].
  - simpl. rewrite decide_True by done. rewrite Hv. destruct v as [c i].
    simpl. do 2 f_equal. lia.
  - change (Nat.iter (S n) PurgeCache r)
      with (PurgeCache (Nat.iter n PurgeCache r)).
    rewrite PurgeCache_lookup, IH.
    destruct (decide (Z.of_nat n ≤ access_count v)) as [Hn|Hn]; simpl.
    + unfold purged, decrement, kDeadAccessCount. simpl.
      destruct (decide (access_count v - Z.of_nat n - 1 = -1)),
               (decide (Z.of_nat (S n) ≤ access_count v)); try lia; [done |].
      do 2 f_equal. lia.
    + rewrite decide_False by lia. done.
Qed.

Lemma run_queries_app r qs1 qs2 :
  run_queries r (qs1 ++ qs2) = run_queries (run_queries r qs1) qs2.
Proof. revert r. induction qs1 as [|q qs1 IH]; intros r; simpl; [done | apply IH]. Qed.

(** Within a disciplined frame that requests [k], an image in the entry of
    [k] is still there, with counter 0, when the frame has been purged. *)
Lemma frame_keeps_requested_image r qs k v i :
  Disciplined [] r →
  NoDup (omap request_key qs) →
  k ∈ omap request_key qs →
  cache_ r !! k = Some v →
  image v = Some i →
  cache_ (PurgeCache (run_queries r qs)) !! k
  = Some {| access_count := 0; image := Some i |}.
Proof.
  intros HD Hnd Hk Hv Hi.
  apply list_elem_of_omap in Hk as (q & Hq & Hqk).
  apply list_elem_of_split in Hq as (qs1 & qs2 & ->).
  rewrite omap_app in Hnd. simpl in Hnd. rewrite Hqk in Hnd.
  apply NoDup_app in Hnd as (Hnd1 & Hdisj & Hnd2).
  apply NoDup_cons in Hnd2 as [Hk2 Hnd2].
  assert (k ∉ omap request_key qs1) as Hk1.
  { intros Hin. apply (Hdisj k Hin). by left. }
  assert (∀ qs', k ∉ omap request_key qs' →
                 Forall (λ q', request_key q' ≠ Some k) qs') as Hother.
  { intros qs' Hnot. apply Forall_forall. intros q' Hq' Hkey.
    apply Hnot, list_elem_of_omap. by exists q'. }
  destruct (disciplined_run_queries [] r qs1 HD Hnd1) as (seen & HD1 & Hseen).
  { apply Forall_forall. intros q' _ k' _. apply not_elem_of_nil. }
  assert (k ∉ seen) as Hfresh.
  { rewrite Hseen. intros [Hin|Hin]; [by apply not_elem_of_nil in Hin | done]. }
  rewrite PurgeCache_lookup, run_queries_app. simpl.
  rewrite run_queries_other by auto.
  rewrite (disciplined_reuse seen (run_queries r qs1) q k v i); auto.
  - simpl. by rewrite lookup_insert_eq.
  - by rewrite run_queries_other by auto.
Qed.

(** X13. An entry requested in every frame is never evicted and keeps its
    image: under the discipline, whatever else the frames request, after any
    number of frames that each request [k] the entry of [k] holds the image
    it held before, with counter 0. *)
Theorem requested_every_frame_is_kept r k v i (frames : list (list (Request SkScalar))) :
  Disciplined [] r →
  cache_ r !! k = Some v →
  image v = Some i →
  Forall (λ qs, NoDup (omap request_key qs) ∧ k ∈ omap request_key qs) frames →
  cache_ (run_frames r frames) !! k
  = Some {| access_count := 0; image := Some i |}.
Proof.
  intros HD Hv Hi Hframes. revert r v HD Hv Hi.
  induction Hframes as [|qs frames [Hnd Hk] _ IH]; intros r v HD Hv Hi; simpl.
  - pose proof (disciplined_counts [] r k v HD Hv) as Hc. simpl in Hc.
    rewrite Hv. destruct v as [c i']. simpl in *. by subst.
  - apply (IH _ {| access_count := 0; image := Some i |}); [| | done].
    + destruct (disciplined_run_queries [] r qs HD Hnd) as (seen & HD' & _).
      * apply Forall_forall. intros q' _ k' _. apply not_elem_of_nil.
      * by apply D_purge with (seen := seen).
    + by apply (frame_keeps_requested_image r qs k v i).
Qed.

(** X19. The purge that ends a frame evicts exactly the entries that were
    not requested in that frame: under the discipline the counter of
    evictions grows by the number of keys in the map that are not among the
    keys of the frame. *)
Theorem purge_evicts_the_idle seen r :
  Disciplined seen r →
  cache_evictions_ (PurgeCache r)
  = (cache_evictions_ r
     + N.of_nat (size (dom (cache_ r) ∖ list_to_set seen : gset Key.t)))%N.
Proof.
  intros HD. rewrite PurgeCache_evictions. do 2 f_equal.
  rewrite <- size_dom. f_equal. apply set_eq. intros k.
  rewrite elem_of_difference, !elem_of_dom, elem_of_list_to_set.
  split.
  - intros [v [Hv Hdead]%map_lookup_filter_Some]. split; [by exists v |].
    intros Hk. pose proof (disciplined_counts seen r k v HD Hv) as Hc.
    rewrite (decide_True (P := k ∈ seen)) in Hc by done.
    unfold reaches_dead, kDeadAccessCount in Hdead. simpl in Hdead. lia.
  - intros [[v Hv] Hk]. exists v. apply map_lookup_filter_Some.
    split; [done |].
    pose proof (disciplined_counts seen r k v HD Hv) as Hc.
    rewrite (decide_False (P := k ∈ seen)) in Hc by done.
    unfold reaches_dead. simpl. by rewrite Hc.
Qed.

(** X20. Rasterization is retried until it succeeds: under the discipline,
    a request that finds an entry without image and gets no texture returns
    absent; the request of the same key in the next frame, the backend
    having texture and image to give again, returns an image and counts one
    fill. *)
Theorem rasterization_is_retried seen r q1 q2 k v :
  Disciplined seen r →
  request_key q1 = Some k →
  request_key q2 = Some k →
  k ∉ seen →
  cache_ r !! k = Some v →
  image v = None →
  allocation_fails q1 →
  rasterization_succeeds q2 →
  returned (query r q1).1 = None
  ∧ ∃ img, returned (query (PurgeCache (query r q1).2) q2).1 = Some img
           ∧ dcheck_ok (query (PurgeCache (query r q1).2) q2).1 = true
           ∧ cache_fills_ (query (PurgeCache (query r q1).2) q2).2
             = (cache_fills_ r + 1)%N.
Proof.
  intros HD Hq1 Hq2 Hk Hv Hi Hfail Hok.
  pose proof (disciplined_counts seen r k v HD Hv) as Hzero.
  rewrite (decide_False (P := k ∈ seen)) in Hzero by done.
  rewrite (query_live_alloc_fails q1 k r v) by (rewrite ?Hzero; done).
  split; [done |]. cbn [snd].
  set (r1 := PurgeCache _).
  assert (cache_ r1 !! k = Some {| access_count := 0; image := None |}) as Hwarm.
  { unfold r1. rewrite PurgeCache_lookup. simpl. rewrite lookup_insert_eq.
    simpl. by rewrite Hzero. }
  destruct (query_live_rasterizes q2 k r1 _ Hq2 Hwarm)
    as (img & calls & -> & _); [done | done | done |].
  exists img. done.
Qed.

End Frames.

(** * Further properties of the layer and of the frame context *)

Section Layers.
Context {SkScalar : Type} `{SkScalarOps SkScalar}.

Implicit Types (r : PictureRasterzier SkScalar) (q : Request SkScalar).
Implicit Types (k : Key.t) (v : Value SkScalar).
Implicit Types (layer : PictureLayer SkScalar) (frame : ScopedFrame SkScalar).

(** X14. What a rasterization yields: an image exactly when both the
    texture and the image can be had, and then one fill more; rasterized
    from the picture asked for, at the scale of the transform, highlighted
    as the options say; the map and the other counters are not touched; and
    when no texture can be had, the allocation is the only GPU call. *)
Theorem rasterization_outcome r options gr pic sz ctm :
  let '(img, calls, r') := ImageFromPicture r options gr pic sz ctm in
  (is_Some img ↔ texture_allocation_succeeds gr = true
                 ∧ image_creation_succeeds gr = true)
  ∧ cache_fills_ r'
    = (cache_fills_ r + match img with Some _ => 1 | None => 0 end)%N
  ∧ cache_ r' = cache_ r
  ∧ cache_hits_ r' = cache_hits_ r
  ∧ cache_evictions_ r' = cache_evictions_ r
  ∧ (∀ i, img = Some i →
          image_picture i = uniqueID pic
          ∧ image_scaleX i = getScaleX ctm
          ∧ image_scaleY i = getScaleY ctm
          ∧ image_checkerboard i = HightlightRasterizedImages options)
  ∧ (texture_allocation_succeeds gr = false →
     calls = [CreateTexture (fWidth sz) (fHeight sz)]).
Proof.
  unfold ImageFromPicture, increment.
  destruct (texture_allocation_succeeds gr), (image_creation_succeeds gr);
    simpl; split_and!; try done; try lia;
    try (split; [by intros [? ?] | by intros [? ?]]);
    try (split; [done | by eexists]).
  by intros i [= <-].
Qed.

(** X15. A layer that has a picture but cannot be cached is replayed: with
    a null GPU backend or an empty physical size, [Paint] passes its
    assertion, leaves the frame context as it is, rasterizer included, and
    draws the replay path.  A layer without picture fails the assertion of
    [Paint]. *)
Theorem Paint_without_cacheable_input layer frame :
  (picture_ layer = None → picture_dcheck_ok (Paint layer frame).1 = false)
  ∧ (is_Some (picture_ layer) →
     gr_context frame = None
     ∨ isEmpty (physical_size_of layer (getTotalMatrix (canvas frame))) = true →
     picture_dcheck_ok (Paint layer frame).1 = true
     ∧ dcheck_ok (cache_call (Paint layer frame).1) = true
     ∧ (Paint layer frame).2
       = {| paint_context := paint_context frame;
            canvas := draw (canvas frame) (replay_path layer);
            gr_context := gr_context frame |}).
Proof.
  split.
  - intros Hnone. unfold Paint. rewrite Hnone.
    by destruct (GetCachedImageIfPresent _ _ _ _ _ _).
  - intros Hpic Hguard. unfold Paint.
    rewrite guard_returns by tauto.
    rewrite bool_decide_eq_true_2 by done.
    destruct frame as [[rast opts count] cv g]. done.
Qed.

(** X16. Warm-up, seen from the layer.  A layer with a picture and a
    non-empty physical size, whose key has no entry, is painted in one frame
    and, the frame having ended, painted again in a frame with the same
    transform and a backend that has texture and image to give: the first
    [Paint] draws the replay path, the second draws the cached image of the
    layer's picture at the layer's offset. *)
Theorem Paint_warms_up layer frame1 frame2 pic gr1 gr2 :
  picture_ layer = Some pic →
  isEmpty (physical_size_of layer (getTotalMatrix (canvas frame1))) = false →
  gr_context frame1 = Some gr1 →
  cache_ (rasterizer_ (paint_context frame1))
    !! Key.mk (uniqueID pic)
              (physical_size_of layer (getTotalMatrix (canvas frame1))) = None →
  rasterizer_ (paint_context frame2)
  = rasterizer_ (paint_context (endFrame (Paint layer frame1).2)) →
  getTotalMatrix (canvas frame2) = getTotalMatrix (canvas frame1) →
  gr_context frame2 = Some gr2 →
  texture_allocation_succeeds gr2 = true →
  image_creation_succeeds gr2 = true →
  drawn (canvas (Paint layer frame1).2)
  = drawn (canvas frame1) ++ replay_path layer
  ∧ ∃ img, drawn (canvas (Paint layer frame2).2)
           = drawn (canvas frame2) ++ cached_path layer img
           ∧ image_picture img = uniqueID pic.
Proof.
  intros Hpic Hsz Hg1 Hnone Hr2 Hctm Hg2 Htex Himg.
  set (k := Key.mk (uniqueID pic)
                   (physical_size_of layer (getTotalMatrix (canvas frame1)))) in *.
  assert (request_key (paint_request layer frame1) = Some k) as Hq1.
  { unfold request_key, paint_request. simpl. by rewrite Hsz, Hpic, Hg1. }
  assert (request_key (paint_request layer frame2) = Some k) as Hq2.
  { unfold request_key, paint_request. simpl. by rewrite Hctm, Hsz, Hpic, Hg2. }
  assert (rasterizer_ (paint_context (Paint layer frame1).2)
          = (query (rasterizer_ (paint_context frame1))
                   (paint_request layer frame1)).2) as Hafter.
  { unfold Paint, query, paint_request. simpl.
    by destruct (GetCachedImageIfPresent _ _ _ _ _ _). }
  split.
  - rewrite Paint_draws, (query_fresh _ k) by done. done.
  - assert (cache_ (rasterizer_ (paint_context frame2)) !! k
            = Some {| access_count := 0; image := None |}) as Hwarm.
    { rewrite Hr2.
      change (rasterizer_ (paint_context (endFrame (Paint layer frame1).2)))
        with (PurgeCache (rasterizer_ (paint_context (Paint layer frame1).2))).
      rewrite Hafter.
      apply (warm_entry _ (paint_request layer frame1) k [] []); auto. }
    destruct (query_live_rasterizes (paint_request layer frame2) k
                (rasterizer_ (paint_context frame2)) _ Hq2 Hwarm)
      as (img & calls & Hquery & Hid); [done | done | |].
    { exists gr2. by rewrite <- Hg2. }
    exists img. split; [| done].
    by rewrite Paint_draws, Hquery.
Qed.

Lemma save_depth_app (ops1 ops2 : list (CanvasOp SkScalar)) depth :
  save_depth depth (ops1 ++ ops2)
  = save_depth depth ops1 ≫= λ depth', save_depth depth' ops2.
Proof.
  revert depth. induction ops1 as [|op ops1 IH]; intros depth; [done |].
  destruct op; simpl; try apply IH. destruct depth; [done | apply IH].
Qed.

(** X17. [Paint] restores what it saves: painting any number of layers
    leaves the save stack of the canvas at the depth at which it found it. *)
Theorem Paint_restores_what_it_saves (layers : list (PictureLayer SkScalar))
    frame depth depth' :
  save_depth depth (drawn (canvas frame)) = Some depth' →
  save_depth depth
    (drawn (canvas (foldl (λ frame layer, (Paint layer frame).2) frame layers)))
  = Some depth'.
Proof.
  revert frame. induction layers as [|layer layers IH]; intros frame Hd;
    simpl; [done |].
  apply IH. rewrite Paint_draws, save_depth_app, Hd. simpl.
  by destruct (returned _).
Qed.

(** X18. The overlay at the end of a frame.  [endFrame] appends to what was
    drawn the lines of the enabled statistics and nothing else: the frame
    line at (10, 20); the rasterizer line below it at (10, 38), or at
    (10, 20) when the frame line is off.  The rasterizer line shows hits and
    fills as they were and the evictions after the purge of this very
    frame. *)
Theorem endFrame_overlay frame :
  let ctx := paint_context frame in
  let r := rasterizer_ ctx in
  drawn (canvas (endFrame frame))
  = drawn (canvas frame)
    ++ (if DisplayFrameStatistics (options_ ctx)
        then [DrawText (FrameText (frame_count_ ctx)) 10 20] else [])
    ++ (if DisplayRasterizerStatistics (options_ ctx)
        then [DrawText
                (RasterizerText
                   (cache_hits_ r) (cache_fills_ r)
                   (cache_evictions_ r
                    + N.of_nat (size (filter reaches_dead (cache_ r)))))
                10
                (if DisplayFrameStatistics (options_ ctx) then 38 else 20)]
        else []).
Proof.
  intros ctx r. unfold endFrame, DisplayStatistics. cbn [options_ frame_count_ rasterizer_ paint_context canvas].
  fold ctx. fold r. rewrite PurgeCache_evictions.
  change (cache_hits_ (PurgeCache r)) with (cache_hits_ r).
  change (cache_fills_ (PurgeCache r)) with (cache_fills_ r).
  destruct (DisplayFrameStatistics (options_ ctx)),
           (DisplayRasterizerStatistics (options_ ctx)); simpl;
    rewrite ?app_nil_r, <- ?app_assoc; done.
Qed.

End Layers.

(** ** The further properties at the scenario *)

Lemma frame2_in_progress :
  Disciplined [key7] (query warm (request7 gpu_ready)).2.
Proof.
  apply (D_query [] warm (request7 gpu_ready) key7).
  - apply frame1_ended.
  - reflexivity.
  - apply not_elem_of_nil.
Qed.

Lemma frame2_ended : Disciplined [] cached.
Proof. apply D_purge with (seen := [key7]). apply frame2_in_progress. Qed.

Lemma cached_entry :
  cache_ cached !! key7 = Some {| access_count := 0; image := Some image7 |}.
Proof. vm_compute. reflexivity. Qed.

Lemma request_keeps_other_entries_witness :
  cache_ (query cached (request7 gpu_ready)).2
    !! Key.mk 8 (SkISize_Make 200 100)
  = cache_ cached !! Key.mk 8 (SkISize_Make 200 100).
Proof.
  apply (request_keeps_other_entries cached (request7 gpu_ready)).
  discriminate.
Defined.

Lemma returned_image_is_cached_witness :
  ∃ k v, request_key (request7 gpu_ready) = Some k
         ∧ cache_ (query warm (request7 gpu_ready)).2 !! k = Some v
         ∧ image v = Some image7.
Proof.
  apply (returned_image_is_cached warm (request7 gpu_ready) image7).
  vm_compute. reflexivity.
Defined.

Lemma cached_image_is_reused_witness :
  returned (query cached (request7 gpu_exhausted)).1 = Some image7
  ∧ gpu_calls (query cached (request7 gpu_exhausted)).1 = [].
Proof.
  rewrite (cached_image_is_reused [] cached (request7 gpu_exhausted) key7
             {| access_count := 0; image := Some image7 |} image7).
  - split; reflexivity.
  - apply frame2_ended.
  - reflexivity.
  - apply not_elem_of_nil.
  - apply cached_entry.
  - reflexivity.
Defined.

Lemma second_request_trips_assertion_witness :
  dcheck_ok (query (query warm (request7 gpu_ready)).2 (request7 gpu_ready)).1
  = false.
Proof.
  apply (second_request_trips_assertion [key7]
           (query warm (request7 gpu_ready)).2 (request7 gpu_ready) key7).
  - apply frame2_in_progress.
  - reflexivity.
  - left.
Defined.

Lemma purge_leaves_keys_of_the_frame_witness :
  dom (cache_ cached) = list_to_set [key7].
Proof.
  apply (purge_leaves_keys_of_the_frame [key7]
           (query warm (request7 gpu_ready)).2).
  apply frame2_in_progress.
Defined.

Lemma entry_outlives_its_counter_witness :
  cache_ (Nat.iter 2 PurgeCache (query warm (request7 gpu_ready)).2) !! key7
  = None.
Proof.
  apply (entry_outlives_its_counter (query warm (request7 gpu_ready)).2 key7
           {| access_count := 1; image := Some image7 |} 2).
  - vm_compute. reflexivity.
  - simpl. lia.
Defined.

Lemma requested_every_frame_is_kept_witness :
  cache_ (run_frames cached [[request7 gpu_exhausted]; [request7 gpu_ready]])
    !! key7
  = Some {| access_count := 0; image := Some image7 |}.
Proof.
  apply (requested_every_frame_is_kept cached key7
           {| access_count := 0; image := Some image7 |} image7).
  - apply frame2_ended.
  - apply cached_entry.
  - reflexivity.
  - repeat constructor; try apply not_elem_of_nil.
Defined.

Lemma purge_evicts_the_idle_witness :
  cache_evictions_ (PurgeCache cached) = 1%N.
Proof.
  etransitivity; [apply (purge_evicts_the_idle [] cached), frame2_ended |].
  vm_compute. reflexivity.
Defined.

Lemma rasterization_is_retried_witness :
  returned (query warm (request7 gpu_exhausted)).1 = None
  ∧ ∃ img, returned (query (PurgeCache (query warm (request7 gpu_exhausted)).2)
                           (request7 gpu_ready)).1 = Some img.
Proof.
  destruct (rasterization_is_retried [] warm (request7 gpu_exhausted)
              (request7 gpu_ready) key7 {| access_count := 0; image := None |})
    as (Hfirst & img & Hsecond & _).
  - apply frame1_ended.
  - reflexivity.
  - reflexivity.
  - apply not_elem_of_nil.
  - vm_compute. reflexivity.
  - reflexivity.
  - exists gpu_exhausted. split; reflexivity.
  - exists gpu_ready. repeat split.
  - split; [exact Hfirst |]. exists img. exact Hsecond.
Defined.

Lemma rasterization_outcome_witness :
  (ImageFromPicture fresh no_options gpu_exhausted picture7
     (SkISize_Make 200 100) scale2).1.2
  = [CreateTexture 200 100].
Proof.
  pose proof (rasterization_outcome fresh no_options gpu_exhausted picture7
                (SkISize_Make 200 100) scale2) as Hout.
  destruct (ImageFromPicture fresh no_options gpu_exhausted picture7
              (SkISize_Make 200 100) scale2) as [[img calls] r'].
  destruct Hout as (_ & _ & _ & _ & _ & _ & Hcalls).
  apply Hcalls. reflexivity.
Defined.

Lemma Paint_without_cacheable_input_witness :
  picture_dcheck_ok (Paint layer7 (frame_on cached None)).1 = true
  ∧ (Paint layer7 (frame_on cached None)).2
    = {| paint_context := paint_context (frame_on cached None);
         canvas := draw (canvas (frame_on cached None)) (replay_path layer7);
         gr_context := None |}.
Proof.
  destruct (Paint_without_cacheable_input layer7 (frame_on cached None))
    as [_ Hreplay].
  destruct Hreplay as (Hcheck & _ & Hframe).
  - by exists picture7.
  - left. reflexivity.
  - split; [exact Hcheck | exact Hframe].
Defined.

Lemma Paint_warms_up_witness :
  drawn (canvas (Paint layer7 (frame_on fresh (Some gpu_exhausted))).2)
  = [Save; Translate 5 6; DrawPicture (Some picture7); Restore]
  ∧ ∃ img, drawn (canvas (Paint layer7 (frame_on warm (Some gpu_ready))).2)
           = [DrawImage img 5 6]
           ∧ image_picture img = 7.
Proof.
  apply (Paint_warms_up layer7 (frame_on fresh (Some gpu_exhausted))
           (frame_on warm (Some gpu_ready)) picture7 gpu_exhausted gpu_ready);
    reflexivity.
Defined.

Lemma Paint_restores_what_it_saves_witness :
  save_depth 0
    (drawn (canvas (foldl (λ frame layer, (Paint layer frame).2)
                          (frame_on fresh (Some gpu_ready))
                          [layer7; layer7])))
  = Some 0%nat.
Proof.
  apply (Paint_restores_what_it_saves [layer7; layer7]
           (frame_on fresh (Some gpu_ready)) 0 0).
  reflexivity.
Defined.
